(** * The paginated form crawler of [Emphasoft/main_async.py]

    A shallow embedding of the crawler: the helpers on Python strings it
    relies on, the rows of a listing page, the per-page aggregation
    ([is_key_in_dict], [parse_page_forms_json]), the fetcher ([load_page]),
    the downloader ([save_page_form_pdf]) and the pagination loop ([main]),
    followed by the properties of each. *)

From Stdlib Require Import ZArith Ascii String List Lia Permutation.
From stdpp Require Import base option list strings pretty gmap.

Open Scope string_scope.
Open Scope list_scope.
Open Scope Z_scope.

(** ** Python values used by the program *)

(** Python [str] values are modelled as Rocq strings, one character per code
    point below 256; [bytes] values as lists of bytes. *)
Definition bytes : Type := list Byte.byte.

(** The exceptions the program can meet.  All of them derive from
    [Exception], so a bare [except Exception] catches each one. *)
Inductive exc : Type :=
  | AttributeError   (* attribute access on [None], or a missing attribute *)
  | ValueError       (* [int()] on a text that is no integer literal; NUL in a path *)
  | KeyError         (* [attrs['href']] on a link without target *)
  | IndexError       (* a list index out of range *)
  | TypeError        (* a value of the wrong type handed to a library *)
  | ClientError      (* transport-level failure raised by [session.get] *)
  | FileExistsError      (* [mkdir] on the path of a regular file *)
  | NotADirectoryError   (* a regular file where a directory is needed *)
  | FileNotFoundError    (* [open] in a directory that does not exist *)
  | IsADirectoryError.   (* [open] for writing on a directory *)

(** A computation that returns or raises. *)
Definition Res (A : Type) : Type := exc + A.

Definition res_bind {A B} (m : Res A) (f : A -> Res B) : Res B :=
  match m with
  | inl e => inl e
  | inr a => f a
  end.

(** ** String helpers *)

Module PyStr.

(** [c.isspace()] for a code point below 256. *)
Definition isspace (c : ascii) : bool :=
  let n := N_of_ascii c in
  ((9 <=? n) && (n <=? 13) || (28 <=? n) && (n <=? 32)
   || (n =? 133) || (n =? 160))%N.

Fixpoint lstrip (s : string) : string :=
  match s with
  | String c s' => if isspace c then lstrip s' else s
  | EmptyString => EmptyString
  end.

Definition rstrip (s : string) : string :=
  String.rev (lstrip (String.rev s)).

(** [s.strip()] *)
Definition strip (s : string) : string := rstrip (lstrip s).

(** [s.split(sep, 1)[0]]: the text before the first occurrence of [sep],
    or all of [s] when [sep] does not occur. *)
Fixpoint split_head (sep s : string) : string :=
  if String.prefix sep s then EmptyString
  else match s with
       | String c s' => String c (split_head sep s')
       | EmptyString => EmptyString
       end.

Definition digit_value (c : ascii) : option Z :=
  let n := N_of_ascii c in
  if ((48 <=? n) && (n <=? 57))%N then Some (Z.of_N n - 48) else None.

(** The digits of a decimal literal, read left to right: [acc] is the value
    so far, [after_digit] tells whether the previous character was a digit
    (an underscore is allowed only between two digits). *)
Fixpoint digits (s : string) (acc : Z) (after_digit : bool) : option Z :=
  match s with
  | EmptyString => if after_digit then Some acc else None
  | String c s' =>
      match digit_value c with
      | Some d => digits s' (10 * acc + d) true
      | None =>
          if (Ascii.eqb c "_" && after_digit)%bool
          then match s' with
               | String c' _ =>
                   match digit_value c' with
                   | Some _ => digits s' acc false
                   | None => None
                   end
               | EmptyString => None
               end
          else None
      end
  end.

(** The number of digit characters of a text. *)
Fixpoint digit_count (s : string) : N :=
  match s with
  | EmptyString => 0%N
  | String c s' =>
      match digit_value c with
      | Some _ => N.succ (digit_count s')
      | None => digit_count s'
      end
  end.

(** The default of [sys.int_max_str_digits]. *)
Definition max_str_digits : N := 4300.

(** The digits of a literal, as [int] accepts them: well formed, and not more
    than [max_str_digits] digit characters (leading zeros count, underscores
    do not). *)
Definition literal (s : string) : option Z :=
  match digits s 0 false with
  | Some n => if (digit_count s <=? max_str_digits)%N then Some n else None
  | None => None
  end.

(** [int(s)] in base 10: surrounding white space, an optional sign, then
    digits; [ValueError] otherwise. *)
Definition int (s : string) : Res Z :=
  match strip s with
  | String "-" s' =>
      match literal s' with
      | Some n => inr (- n)
      | None => inl ValueError
      end
  | String "+" s' =>
      match literal s' with
      | Some n => inr n
      | None => inl ValueError
      end
  | s' =>
      match literal s' with
      | Some n => inr n
      | None => inl ValueError
      end
  end.

Definition hex_digit (n : N) : ascii :=
  if (n <? 10)%N then ascii_of_N (48 + n) else ascii_of_N (87 + n).

(** One character of a JSON string as [json.dumps] writes it with its
    default [ensure_ascii=True]. *)
Definition json_escape_char (c : ascii) : string :=
  let n := N_of_ascii c in
  if (n =? 34)%N then "\" +:+ String c EmptyString
  else if (n =? 92)%N then "\\"
  else if (n =? 10)%N then "\n"
  else if (n =? 13)%N then "\r"
  else if (n =? 9)%N then "\t"
  else if (n =? 8)%N then "\b"
  else if (n =? 12)%N then "\f"
  else if ((32 <=? n) && (n <=? 126))%N then String c EmptyString
  else "\u00" +:+ String (hex_digit (n / 16)) (String (hex_digit (n mod 16)) EmptyString).

Fixpoint json_escape (s : string) : string :=
  match s with
  | EmptyString => EmptyString
  | String c s' => json_escape_char c +:+ json_escape s'
  end.

Definition quote : string := String (ascii_of_N 34) EmptyString.

Definition json_string (s : string) : string :=
  quote +:+ json_escape s +:+ quote.

End PyStr.

(** ** Rows of a listing page *)

(** The link element of a row: its [.string] ([None] when the element has no
    single text child) and its [href] attribute, when present. *)
Record Anchor : Type := mkAnchor {
  a_string : option string;
  a_href : option string
}.

(** A [tr] element, as seen through the three look-ups the program makes:
    [row.findChild(['LeftCellSpacer', 'a'])], and [row.find] of the [td]
    cells of class [MiddleCellSpacer] and [EndCellSpacer].  A look-up that
    finds nothing gives [None]; a cell that is found has a [.string], which
    is [None] again when the cell has no single text child. *)
Record Row : Type := mkRow {
  row_link : option Anchor;
  row_middle : option (option string);
  row_end : option (option string)
}.

(** Attribute access on the result of a look-up: on [None] it raises. *)
Definition attr_of {A} (o : option A) : Res A :=
  match o with
  | Some a => inr a
  | None => inl AttributeError
  end.

(** [row.findChild(['LeftCellSpacer', 'a']).string.split(' (', 1)[0]] *)
Definition row_form_number (row : Row) : Res string :=
  res_bind (attr_of (row_link row)) (fun a =>
  res_bind (attr_of (a_string a)) (fun s =>
  inr (PyStr.split_head " (" s))).

(** [int(row.find(name='td', attrs={'class': 'EndCellSpacer'}).string.strip())] *)
Definition row_current_year (row : Row) : Res Z :=
  res_bind (attr_of (row_end row)) (fun cell =>
  res_bind (attr_of cell) (fun s =>
  PyStr.int (PyStr.strip s))).

(** [row.find(name='td', attrs={'class': 'MiddleCellSpacer'}).string.strip()] *)
Definition row_form_title (row : Row) : Res string :=
  res_bind (attr_of (row_middle row)) (fun cell =>
  res_bind (attr_of cell) (fun s =>
  inr (PyStr.strip s))).

(** [form_number_elem.attrs['href']], for the element the first look-up
    gave. *)
Definition row_href (row : Row) : Res string :=
  res_bind (attr_of (row_link row)) (fun a =>
  match a_href a with
  | Some h => inr h
  | None => inl KeyError
  end).

(** ** The aggregation of one page *)

(** The dictionaries of [page_forms]: always the same four keys. *)
Record Form : Type := mkForm {
  form_number : string;
  form_title : string;
  min_year : Z;
  max_year : Z
}.

Definition set_min_year (d : Form) (y : Z) : Form :=
  mkForm (form_number d) (form_title d) y (max_year d).

Definition set_max_year (d : Form) (y : Z) : Form :=
  mkForm (form_number d) (form_title d) (min_year d) y.

(** [json.dumps(page_form)] *)
Definition json_dumps (d : Form) : string :=
  "{" +:+ PyStr.json_string "form_number" +:+ ": " +:+ PyStr.json_string (form_number d)
  +:+ ", " +:+ PyStr.json_string "form_title" +:+ ": " +:+ PyStr.json_string (form_title d)
  +:+ ", " +:+ PyStr.json_string "min_year" +:+ ": " +:+ pretty (min_year d)
  +:+ ", " +:+ PyStr.json_string "max_year" +:+ ": " +:+ pretty (max_year d) +:+ "}".

(** The scan of [is_key_in_dict], from position [i] on. *)
Fixpoint is_key_in_dict_from (i : nat) (dict_key : string) (array : list Form)
  : option nat :=
  match array with
  | [] => None
  | dict_ :: rest =>
      if String.eqb (form_number dict_) dict_key then Some i
      else is_key_in_dict_from (S i) dict_key rest
  end.

(** [is_key_in_dict]: the index of the first dictionary whose [form_number]
    is [dict_key]; Python's implicit [None] when there is none. *)
Definition is_key_in_dict (dict_key : string) (array : list Form) : option nat :=
  is_key_in_dict_from 0 dict_key array.

(** The body of the [try] of [parse_page_forms_json] for one row, on the
    current [page_forms]; the result is [page_forms] after the row. *)
Definition parse_row (page_forms : list Form) (row : Row) : Res (list Form) :=
  res_bind (row_form_number row) (fun form_number =>
  res_bind (row_current_year row) (fun current_year =>
  match is_key_in_dict form_number page_forms with
  | None =>
      res_bind (row_form_title row) (fun form_title =>
      inr (page_forms ++ [mkForm form_number form_title current_year current_year]))
  | Some index =>
      match page_forms !! index with
      | None => inl IndexError
      | Some d =>
          if (min_year d >? current_year)%Z
          then inr (<[index := set_min_year d current_year]> page_forms)
          else if (max_year d <? current_year)%Z
          then inr (<[index := set_max_year d current_year]> page_forms)
          else inr page_forms
      end
  end)).

(** ** The world the program acts on *)

(** A line of the error log: the text of the f-string before the exception,
    and the exception it prints (none for the status message of
    [load_page]). *)
Record LogEntry : Type := mkLog {
  log_text : string;
  log_cause : option exc
}.

(** The body of a response, as [resp.read()] returns it: its bytes, and what
    [BeautifulSoup(body, 'html.parser')] then finds in it, namely the [tr]
    elements ([find_all(name='tr')]) of the table of class
    [picklist-dataTable], or [None] when the document has no such table. *)
Record Body : Type := mkBody {
  body_bytes : bytes;
  body_table : option (list Row)
}.

Record Response : Type := mkResponse {
  status : Z;
  body : Body
}.

(** Attribute access on a response object.  The client library names the
    status code of a response [status]; it has no attribute
    [status_code]. *)
Definition resp_getattr (resp : Response) (name : string) : Res Z :=
  if String.eqb name "status" then inr (status resp) else inl AttributeError.

(** The regular files and the directories on disk, each under the text of
    its path relative to the working directory, the requests sent so far
    (oldest first) and the error log (oldest first).  The disk is that of a
    POSIX system with room and permission for what the program writes; what
    it refuses is what the layout of the paths forbids.  Paths are compared
    as texts, component by component: [.], [..], doubled or trailing [/]
    and the root are not resolved, and the length of a name is not
    limited. *)
Record World : Type := mkWorld {
  files : gmap string bytes;
  dirs : gset string;
  requests : list string;
  errors : list LogEntry
}.

(** Computations on the world that return or raise. *)
Definition M (A : Type) : Type := World -> World * Res A.

Global Instance M_ret : MRet M := fun A a w => (w, inr a).

Global Instance M_bind : MBind M := fun A B f m w =>
  match m w with
  | (w', inr a) => f a w'
  | (w', inl e) => (w', inl e)
  end.

Definition raise {A} (e : exc) : M A := fun w => (w, inl e).

Definition lift {A} (r : Res A) : M A := fun w => (w, r).

(** [try: body / except Exception as e: handler e] *)
Definition try_except {A} (body : M A) (handler : exc -> M A) : M A := fun w =>
  match body w with
  | (w', inr a) => (w', inr a)
  | (w', inl e) => handler e w'
  end.

(** [logger.error(...)] *)
Definition logger_error (text : string) (cause : option exc) : M unit := fun w =>
  (mkWorld (files w) (dirs w) (requests w) (errors w ++ [mkLog text cause]), inr tt).

(** The directory a path lies in: the text before its last [/]; [None] for
    a name without [/], which lies in the working directory. *)
Fixpoint parent_dir (p : string) : option string :=
  match p with
  | EmptyString => None
  | String c p' =>
      match parent_dir p' with
      | Some d => Some (String c d)
      | None => if Ascii.eqb c "/" then Some EmptyString else None
      end
  end.

(** The directories on the way to the path [pre ++ rest]: every prefix that
    ends before a [/] of [rest], then the path itself. *)
Fixpoint dir_chain (pre rest : string) : list string :=
  match rest with
  | EmptyString => [pre]
  | String c rest' =>
      if Ascii.eqb c "/" then pre :: dir_chain (pre +:+ "/") rest'
      else dir_chain (pre +:+ String c EmptyString) rest'
  end.

(** The text holds the character NUL, which no path may hold. *)
Fixpoint has_nul (s : string) : bool :=
  match s with
  | EmptyString => false
  | String c s' => Ascii.eqb c "000" || has_nul s'
  end.

Definition is_dir (w : World) (p : string) : bool := bool_decide (p ∈ dirs w).

Definition is_file (w : World) (p : string) : bool :=
  bool_decide (is_Some (files w !! p)).

(** A regular file sits where a directory is wanted. *)
Definition blocked (w : World) (p : string) : bool := negb (is_dir w p) && is_file w p.

(** [pathlib.Path(p).mkdir(parents=True, exist_ok=True)]: every directory on
    the way to [p], and [p] itself, exists afterwards; directories that are
    there already are left alone ([exist_ok]), the missing ones are created
    ([parents]).  A regular file on the way makes it raise and create
    nothing: [FileExistsError] when the file is at [p] itself,
    [NotADirectoryError] when it is above; a path that holds NUL is refused
    with [ValueError] before the disk is looked at.  The empty name is the
    working directory. *)
Definition mkdir (p : string) : M unit := fun w =>
  let chain :=
    List.filter (fun q => negb (String.eqb q EmptyString)) (dir_chain EmptyString p) in
  if has_nul p then (w, inl ValueError)
  else
    match List.find (blocked w) chain with
    | Some q =>
        (w, inl (if String.eqb q p then FileExistsError else NotADirectoryError))
    | None =>
        (mkWorld (files w) (list_to_set chain ∪ dirs w) (requests w) (errors w), inr tt)
    end.

(** [aiofiles.open(file=filename, mode='wb')]: the path must hold no NUL
    ([ValueError]), the directory of the file must exist
    ([FileNotFoundError], or [NotADirectoryError] when it is a regular file)
    and the file must not be a directory ([IsADirectoryError]); then the file
    exists and is empty from here on. *)
Definition open_wb (filename : string) : M unit := fun w =>
  let missing :=
    match parent_dir filename with
    | Some d =>
        if is_dir w d then None
        else if is_file w d then Some NotADirectoryError
        else Some FileNotFoundError
    | None => None
    end in
  if has_nul filename then (w, inl ValueError)
  else
    match missing with
    | Some e => (w, inl e)
    | None =>
        if is_dir w filename then (w, inl IsADirectoryError)
        else (mkWorld (<[filename := []]> (files w)) (dirs w) (requests w) (errors w),
              inr tt)
    end.

(** [f.write(data)] on a file just opened for writing. *)
Definition write (filename : string) (data : option Body) : M unit :=
  match data with
  | None => raise TypeError
  | Some b => fun w =>
      (mkWorld (<[filename := body_bytes b]> (files w)) (dirs w) (requests w) (errors w),
       inr tt)
  end.

(** ** The program *)

Definition MIN_YEAR : Z := 2018.
Definition MAX_YEAR : Z := 2020.

Section Crawler.

(** The network: what [session.get(url)] gives for each URL, a response or
    a transport failure. *)
Variable net : string -> Res Response.

Definition session_get (url : string) : M Response := fun w =>
  (mkWorld (files w) (dirs w) (requests w ++ [url]) (errors w), net url).

(** [load_page]: the body, or Python's implicit [None] after the [else]
    branch. *)
Definition load_page (url : string) : M (option Body) :=
  resp ← session_get url;
  st ← lift (resp_getattr resp "status");
  if (200 <=? st) && (st <=? 299)
  then mret (Some (body resp))
  else
    code ← lift (resp_getattr resp "status_code");
    logger_error ("Can not access a page, returned status code: " +:+ pretty code) None;;
    mret None.

(** The [for] loop of [parse_page_forms_json], on the current
    [page_forms]. *)
Fixpoint page_forms_loop (rows : list Row) (page_forms : list Form)
  : M (list Form) :=
  match rows with
  | [] => mret page_forms
  | row :: rows' =>
      page_forms' ← try_except (lift (parse_row page_forms row))
                      (fun e => logger_error "Error: " (Some e);; mret page_forms);
      page_forms_loop rows' page_forms'
  end.

Definition parse_page_forms_json (rows : list Row) : M (list string) :=
  page_forms ← page_forms_loop rows [];
  mret (json_dumps <$> page_forms).

(** The body of the [try] of [save_page_form_pdf] for one row. *)
Definition save_row (row : Row) : M unit :=
  current_year ← lift (row_current_year row);
  form_number ← lift (row_form_number row);
  if (MIN_YEAR <=? current_year) && (current_year <=? MAX_YEAR)
  then
    href ← lift (row_href row);
    resp ← load_page href;
    mkdir form_number;;
    let filename :=
      form_number +:+ "/" +:+ form_number +:+ "_" +:+ pretty current_year +:+ ".pdf" in
    open_wb filename;;
    write filename resp
  else mret tt.

Fixpoint save_page_form_pdf (rows : list Row) : M unit :=
  match rows with
  | [] => mret tt
  | row :: rows' =>
      try_except (save_row row)
        (fun e => logger_error "Can not save file, error: " (Some e));;
      save_page_form_pdf rows'
  end.

(** What [main] appends to [tasks]: the list of JSON texts returned by
    [parse_page_forms_json], and the [None] returned by
    [save_page_form_pdf]. *)
Inductive Task : Type :=
  | TaskForms (forms : list string)
  | TaskNone.

Definition listing_url (pagination : Z) : string :=
  "https://apps.irs.gov/app/picklist/list/priorFormPublication.html?"
  +:+ "indexOfFirstRow=" +:+ pretty pagination +:+ "&"
  +:+ "sortColumn=sortOrder&"
  +:+ "value=&criteria=&"
  +:+ "resultsPerPage=200&"
  +:+ "isDescending=false".

(** The [while 1] loop of [main]; [None] when [fuel] iterations were not
    enough to reach the [break]. *)
Fixpoint main_loop (fuel : nat) (pagination : Z) (tasks : list Task)
  : M (option (list Task)) :=
  match fuel with
  | O => mret None
  | S fuel' =>
      page ← load_page (listing_url pagination);
      soup ← match page with
             | Some b => mret b
             | None => raise TypeError
             end;
      let table := body_table soup in
      trs ← lift (attr_of table);
      let rows := drop 1 trs in
      match rows with
      | _ :: _ =>
          t1 ← parse_page_forms_json rows;
          t2 ← save_page_form_pdf rows;
          main_loop fuel' (pagination + 200) (tasks ++ [TaskForms t1; TaskNone])
      | [] => mret (Some tasks)
      end
  end.

(** [asyncio.gather] on the unpacked [tasks]: none of the collected values is awaitable,
    so any argument at all makes it raise. *)
Definition gather (tasks : list Task) : M unit :=
  match tasks with
  | [] => mret tt
  | _ :: _ => raise TypeError
  end.

Definition main (fuel : nat) : M (option unit) :=
  r ← main_loop fuel 0 [];
  match r with
  | None => mret None
  | Some tasks => gather tasks;; mret (Some tt)
  end.

End Crawler.

(** ** Auxiliary definitions for the statements *)

(** What the [if]/[elif] of [parse_page_forms_json] makes of a record that
    meets the year [y]. *)
Definition widen (d : Form) (y : Z) : Form :=
  if (min_year d >? y)%Z then set_min_year d y
  else if (max_year d <? y)%Z then set_max_year d y
  else d.

(** [page_forms] after one row: unchanged when the row raises. *)
Definition fold_row (page_forms : list Form) (row : Row) : list Form :=
  match parse_row page_forms row with
  | inr page_forms' => page_forms'
  | inl _ => page_forms
  end.

(** The errors [parse_page_forms_json] logs on [rows], from [page_forms]. *)
Fixpoint parse_errors (rows : list Row) (page_forms : list Form) : list LogEntry :=
  match rows with
  | [] => []
  | row :: rows' =>
      match parse_row page_forms row with
      | inr page_forms' => parse_errors rows' page_forms'
      | inl e => mkLog "Error: " (Some e) :: parse_errors rows' page_forms
      end
  end.

Definition add_errors (w : World) (l : list LogEntry) : World :=
  mkWorld (files w) (dirs w) (requests w) (errors w ++ l).

Definition keys (page_forms : list Form) : list string :=
  form_number <$> page_forms.

(** A row from which key, year and title can all be read, with key [k]. *)
Definition valid_row (k : string) (row : Row) : bool :=
  match row_form_number row, row_current_year row, row_form_title row with
  | inr k', inr _, inr _ => String.eqb k' k
  | _, _, _ => false
  end.

(** The year of a row; 0 stands in where none can be read. *)
Definition year_of (row : Row) : Z :=
  match row_current_year row with
  | inr y => y
  | inl _ => 0
  end.

(** The bounds of a record are in order. *)
Definition ordered (d : Form) : Prop := min_year d <= max_year d.

(** The empty disk, before any request or error. *)
Definition world0 : World := mkWorld ∅ ∅ [] [].

(** The window test of [save_page_form_pdf]. *)
Definition in_window (y : Z) : bool := (MIN_YEAR <=? y) && (y <=? MAX_YEAR).

(** The destination of an artifact: [{key}/{key}_{year}.pdf]. *)
Definition artifact_path (k : string) (y : Z) : string :=
  k +:+ "/" +:+ k +:+ "_" +:+ pretty y +:+ ".pdf".

(** A fetch succeeds when the transport gives a response whose status lies
    in 200..299; its result is then the body of the response. *)
Definition fetched (net : string -> Res Response) (url : string) : option Body :=
  match net url with
  | inr resp =>
      if (200 <=? status resp) && (status resp <=? 299) then Some (body resp) else None
  | inl _ => None
  end.

(** The world after one more request. *)
Definition sent (w : World) (url : string) : World :=
  mkWorld (files w) (dirs w) (requests w ++ [url]) (errors w).

(** What [save_page_form_pdf] does with one row. *)
Inductive Outcome : Type :=
  | Skipped                                   (* year outside the window *)
  | Failed (req : option string) (e : exc)    (* raised, after the request [req] if any *)
  | Saved (href k path : string) (data : bytes).

Definition save_outcome (net : string -> Res Response) (row : Row) : Outcome :=
  match row_current_year row with
  | inl e => Failed None e
  | inr y =>
      match row_form_number row with
      | inl e => Failed None e
      | inr k =>
          if in_window y then
            match row_href row with
            | inl e => Failed None e
            | inr href =>
                match net href with
                | inl e => Failed (Some href) e
                | inr resp =>
                    if (200 <=? status resp) && (status resp <=? 299)
                    then Saved href k (artifact_path k y) (body_bytes (body resp))
                    else Failed (Some href) AttributeError
                end
            end
          else Skipped
      end
  end.

(** [mkdir] of the key, then the opening of the file. *)
Definition prepare_file (k path : string) : M unit :=
  mkdir k;; open_wb path.

(** What [save_page_form_pdf] makes of the world for one row, given what the
    network did for it: a row that raised leaves one line in the log; a
    fetched artifact is stored when the disk accepts it, and leaves one line
    in the log when [mkdir] or [open] raise. *)
Definition apply_outcome (w : World) (o : Outcome) : World :=
  match o with
  | Skipped => w
  | Failed req e =>
      mkWorld (files w) (dirs w) (requests w ++ option_list req)
        (errors w ++ [mkLog "Can not save file, error: " (Some e)])
  | Saved href k path data =>
      match prepare_file k path
              (mkWorld (files w) (dirs w) (requests w ++ [href]) (errors w)) with
      | (w1, inr _) =>
          mkWorld (<[path := data]> (files w1)) (dirs w1) (requests w1) (errors w1)
      | (w1, inl e) =>
          mkWorld (files w1) (dirs w1) (requests w1)
            (errors w1 ++ [mkLog "Can not save file, error: " (Some e)])
      end
  end.

Definition outcome_requests (o : Outcome) : list string :=
  match o with
  | Skipped => []
  | Failed req _ => option_list req
  | Saved href _ _ _ => [href]
  end.

(** The artifact requests [save_page_form_pdf] sends for the rows of a
    page. *)
Definition artifact_requests (net : string -> Res Response) (rows : list Row)
  : list string :=
  flat_map (fun row => outcome_requests (save_outcome net row)) rows.

(** The rows of the listing page at [pagination], header dropped, when the
    page is served with a status in 200..299 and holds the table. *)
Definition listing_rows (net : string -> Res Response) (pagination : Z)
  : option (list Row) :=
  match fetched net (listing_url pagination) with
  | Some b => drop 1 <$> body_table b
  | None => None
  end.

Definition page_at (net : string -> Res Response) (i : nat) : list Row :=
  default [] (listing_rows net (200 * Z.of_nat i)).

Definition nonempty_page (net : string -> Res Response) (i : nat) : bool :=
  match listing_rows net (200 * Z.of_nat i) with
  | Some (_ :: _) => true
  | _ => false
  end.

Definition empty_page (net : string -> Res Response) (i : nat) : bool :=
  match listing_rows net (200 * Z.of_nat i) with
  | Some [] => true
  | _ => false
  end.

(** The world after the two passes over the rows of page [i]. *)
Definition process_page (net : string -> Res Response) (w : World) (i : nat) : World :=
  let rows := page_at net i in
  let w1 := sent w (listing_url (200 * Z.of_nat i)) in
  let w2 := (parse_page_forms_json rows w1).1 in
  (save_page_form_pdf net rows w2).1.

(** The texts collected by [main], in order. *)
Definition aggregated_output (tasks : list Task) : list string :=
  flat_map (fun t => match t with TaskForms l => l | TaskNone => [] end) tasks.

(** Each key has a single record in the output. *)
Definition one_record_per_key (out : list string) : Prop :=
  forall i j r1 r2,
    out !! i = Some (json_dumps r1) -> out !! j = Some (json_dumps r2) ->
    form_number r1 = form_number r2 -> i = j.

(** *** Sample data *)

(** A well-formed row: link text [k] with target [href], title [t] and year
    text [y]. *)
Definition sample_row (k href t y : string) : Row :=
  mkRow (Some (mkAnchor (Some k) (Some href))) (Some (Some t)) (Some (Some y)).

Definition row_1040_2019 : Row :=
  sample_row "1040" "https://irs.example/f1040--2019.pdf" "Individual Tax Return" "2019".

Definition row_1040_2020 : Row :=
  sample_row "1040 (SP)" "https://irs.example/f1040--2020.pdf" "Individual Tax Return" "2020".

Definition row_1040_2017 : Row :=
  sample_row "1040" "https://irs.example/f1040--2017.pdf" "Individual Tax Return" " 2017 ".

Definition pdf_2019 : bytes := [Byte.x25; Byte.x50; Byte.x44; Byte.x46; Byte.x31].

Definition pdf_2020 : bytes := [Byte.x25; Byte.x50; Byte.x44; Byte.x46; Byte.x32].

Definition header_row : Row := mkRow None None None.

(** A server that answers every request with status 404. *)
Definition net_404 (url : string) : Res Response :=
  inr (mkResponse 404 (mkBody [] None)).

(** The listing of the example of the specification: one page with the form
    1040 for 2019 and 2020, then a page whose table holds the header only;
    both artifacts are served. *)
Definition net_example (url : string) : Res Response :=
  if String.eqb url (listing_url 0) then
    inr (mkResponse 200 (mkBody [] (Some [header_row; row_1040_2019; row_1040_2020])))
  else if String.eqb url (listing_url 200) then
    inr (mkResponse 200 (mkBody [] (Some [header_row])))
  else if String.eqb url "https://irs.example/f1040--2019.pdf" then
    inr (mkResponse 200 (mkBody pdf_2019 None))
  else if String.eqb url "https://irs.example/f1040--2020.pdf" then
    inr (mkResponse 200 (mkBody pdf_2020 None))
  else inr (mkResponse 404 (mkBody [] None)).

(** A listing whose first page is served but holds no table of class
    [picklist-dataTable]. *)
Definition net_no_table (url : string) : Res Response :=
  inr (mkResponse 200 (mkBody [] None)).

(** Two pages that both list the form 1040, for 2019 and for 2020, then a
    page with the header only. *)
Definition net_two_pages (url : string) : Res Response :=
  if String.eqb url (listing_url 0) then
    inr (mkResponse 200 (mkBody [] (Some [header_row; row_1040_2019])))
  else if String.eqb url (listing_url 200) then
    inr (mkResponse 200 (mkBody [] (Some [header_row; row_1040_2020])))
  else if String.eqb url (listing_url 400) then
    inr (mkResponse 200 (mkBody [] (Some [header_row])))
  else inr (mkResponse 404 (mkBody [] None)).

(** What [main] collects for page [i]. *)
Definition page_tasks (net : string -> Res Response) (i : nat) : list Task :=
  [TaskForms (json_dumps <$> fold_left fold_row (page_at net i) []); TaskNone].

(** What [main] requests for page [i]: the page, then the artifacts. *)
Definition page_requests (net : string -> Res Response) (i : nat) : list string :=
  listing_url (200 * Z.of_nat i) :: artifact_requests net (page_at net i).

(** A row of the form 1040 for 2020 that lacks its title cell. *)
Definition row_no_title_2020 : Row :=
  mkRow (Some (mkAnchor (Some "1040") (Some "https://irs.example/f1040--2020.pdf")))
        None (Some (Some "2020")).

(** A row whose year is no number. *)
Definition row_bad_year : Row :=
  sample_row "1040" "https://irs.example/f1040--2020.pdf" "Individual Tax Return" "n/a".

(** The key or the year of the row cannot be read. *)
Definition unreadable (row : Row) : bool :=
  match row_form_number row, row_current_year row with
  | inr _, inr _ => false
  | _, _ => true
  end.

(** Some look-up of the row fails: its structure is not the expected one. *)
Definition malformed (row : Row) : bool :=
  match row_form_number row, row_current_year row, row_form_title row, row_href row with
  | inr _, inr _, inr _, inr _ => false
  | _, _, _, _ => true
  end.

(** The row [bad] of the batch [pre ++ bad :: post] is skipped with one
    logged error by each pass, and both passes treat the other rows as if
    [bad] were not there: same records, same files, directories and
    requests. *)
Definition skipped_in_isolation (net : string -> Res Response)
    (pre : list Row) (bad : Row) (post : list Row) : Prop :=
  forall w,
    (page_forms_loop (pre ++ bad :: post) [] w).2
    = (page_forms_loop (pre ++ post) [] w).2 /\
    length (errors (page_forms_loop (pre ++ bad :: post) [] w).1)
    = S (length (errors (page_forms_loop (pre ++ post) [] w).1)) /\
    files (save_page_form_pdf net (pre ++ bad :: post) w).1
    = files (save_page_form_pdf net (pre ++ post) w).1 /\
    dirs (save_page_form_pdf net (pre ++ bad :: post) w).1
    = dirs (save_page_form_pdf net (pre ++ post) w).1 /\
    requests (save_page_form_pdf net (pre ++ bad :: post) w).1
    = requests (save_page_form_pdf net (pre ++ post) w).1 /\
    length (errors (save_page_form_pdf net (pre ++ bad :: post) w).1)
    = S (length (errors (save_page_form_pdf net (pre ++ post) w).1)).

(** *** Notions for the further properties *)

(** [pf'] keeps every record of [pf] at its index, with the same key and
    title and a year range that is at least as wide. *)
Definition extends (pf pf' : list Form) : Prop :=
  forall i d, pf !! i = Some d ->
    exists d', pf' !! i = Some d' /\
      form_number d' = form_number d /\ form_title d' = form_title d /\
      min_year d' <= min_year d /\ max_year d <= max_year d'.

(** Some record of [pf] has key [k] and a year range that holds [y]. *)
Definition covers (pf : list Form) (k : string) (y : Z) : Prop :=
  exists d, d ∈ pf /\ form_number d = k /\ min_year d <= y <= max_year d.

(** The key of the record [d] is the key of some row of [rows], and so are,
    for rows of that key, its title and each of its two bounds. *)
Definition from_rows (rows : list Row) (d : Form) : Prop :=
  (exists r, r ∈ rows /\ row_form_number r = inr (form_number d) /\
             row_form_title r = inr (form_title d)) /\
  (exists r, r ∈ rows /\ row_form_number r = inr (form_number d) /\
             row_current_year r = inr (min_year d)) /\
  (exists r, r ∈ rows /\ row_form_number r = inr (form_number d) /\
             row_current_year r = inr (max_year d)).

(** Key, year and title of the row can all be read. *)
Definition readable (row : Row) : bool :=
  match row_form_number row, row_current_year row, row_form_title row with
  | inr _, inr _, inr _ => true
  | _, _, _ => false
  end.

(** The key of a row; the empty text stands in where none can be read. *)
Definition key_of (row : Row) : string :=
  match row_form_number row with
  | inr k => k
  | inl _ => ""
  end.



(** The first page lists the form 1040 for 2019; every other request is
    answered with status 404. *)
Definition net_then_404 (url : string) : Res Response :=
  if String.eqb url (listing_url 0) then
    inr (mkResponse 200 (mkBody [] (Some [header_row; row_1040_2019])))
  else inr (mkResponse 404 (mkBody [] None)).

(** Every character of the text satisfies [P]. *)
Fixpoint string_forall (P : ascii -> bool) (s : string) : bool :=
  match s with
  | EmptyString => true
  | String c s' => P c && string_forall P s'
  end.

Definition is_digit (c : ascii) : bool :=
  match PyStr.digit_value c with
  | Some _ => true
  | None => false
  end.

Definition not_space (c : ascii) : bool := negb (PyStr.isspace c).

(** A printable ASCII character, from the space to the tilde. *)
Definition printable (c : ascii) : bool :=
  ((32 <=? N_of_ascii c) && (N_of_ascii c <=? 126))%N.

(** The value of a text of digits read after the value [acc]. *)
Fixpoint digits_value (acc : Z) (s : string) : Z :=
  match s with
  | EmptyString => acc
  | String c s' =>
      digits_value (10 * acc + default 0 (PyStr.digit_value c)) s'
  end.

(** The text is empty, or neither starts nor ends with white space. *)
Definition trimmed (t : string) : Prop :=
  t = "" \/
  ((exists c t', t = String c t' /\ PyStr.isspace c = false) /\
   (exists t' c, t = t' +:+ String c "" /\ PyStr.isspace c = false)).

(** The text holds no [/]. *)
Fixpoint no_slash (s : string) : bool :=
  match s with
  | EmptyString => true
  | String c s' => negb (Ascii.eqb c "/") && no_slash s'
  end.










(** A listing whose every page holds the header row only. *)
Definition net_empty (url : string) : Res Response :=
  inr (mkResponse 200 (mkBody [] (Some [header_row]))).

(** ** Lemmas on the key scan *)

Lemma is_key_in_dict_from_None i k l :
  is_key_in_dict_from i k l = None <-> k ∉ keys l.
Proof.
  revert i. induction l as [|d l IH]; intros i; simpl.
  - split; [intros _; apply not_elem_of_nil | done].
  - destruct (String.eqb_spec (form_number d) k) as [->|Hne].
    + split; [done | intros H; exfalso; apply H; left].
    + rewrite IH, not_elem_of_cons.
      split; [intros ?; split; [congruence | done] | by intros [_ ?]].
Qed.

Lemma is_key_in_dict_from_Some i k l j :
  is_key_in_dict_from i k l = Some j ->
  exists d, (i <= j)%nat /\ l !! (j - i)%nat = Some d /\ form_number d = k
            /\ k ∉ keys (take (j - i) l).
Proof.
  revert i. induction l as [|d l IH]; intros i; simpl; [done|].
  destruct (String.eqb_spec (form_number d) k) as [<-|Hne].
  - intros [= <-]. exists d. rewrite Nat.sub_diag. simpl.
    repeat split; [lia | apply not_elem_of_nil].
  - intros H. destruct (IH _ H) as (d' & Hle & Hl & Hk & Hnot).
    exists d'. replace (j - i)%nat with (S (j - S i)) by lia. simpl.
    repeat split; [lia | done | done |].
    rewrite not_elem_of_cons. done.
Qed.

Lemma is_key_in_dict_None k l : is_key_in_dict k l = None <-> k ∉ keys l.
Proof. apply is_key_in_dict_from_None. Qed.

Lemma is_key_in_dict_Some k l j :
  is_key_in_dict k l = Some j ->
  exists d, l !! j = Some d /\ form_number d = k /\ k ∉ keys (take j l).
Proof.
  intros H. destruct (is_key_in_dict_from_Some _ _ _ _ H) as (d & _ & Hl & Hk & Hn).
  rewrite Nat.sub_0_r in Hl, Hn. eauto.
Qed.

(** ** Lemmas on one step of the fold *)

Lemma widen_form_number d y : form_number (widen d y) = form_number d.
Proof. unfold widen. repeat case_match; done. Qed.

Lemma widen_form_title d y : form_title (widen d y) = form_title d.
Proof. unfold widen. repeat case_match; done. Qed.

Lemma widen_bounds d y :
  min_year d <= max_year d ->
  min_year (widen d y) = Z.min (min_year d) y /\
  max_year (widen d y) = Z.max (max_year d) y.
Proof.
  intros H. unfold widen.
  destruct (Z.gtb_spec (min_year d) y); [simpl; lia|].
  destruct (Z.ltb_spec (max_year d) y); simpl; lia.
Qed.

Lemma widen_one_bound d y :
  min_year (widen d y) = min_year d \/ max_year (widen d y) = max_year d.
Proof. unfold widen. repeat case_match; simpl; auto. Qed.

Lemma widen_ordered d y :
  min_year d <= max_year d -> min_year (widen d y) <= max_year (widen d y).
Proof. intros H. destruct (widen_bounds d y H) as [-> ->]. lia. Qed.

(** The two ways a row can succeed: a first occurrence appends, a later one
    replaces the record at the index of the key by its widening. *)
Lemma parse_row_seen page_forms row k y i d :
  row_form_number row = inr k ->
  row_current_year row = inr y ->
  is_key_in_dict k page_forms = Some i ->
  page_forms !! i = Some d ->
  parse_row page_forms row = inr (<[i := widen d y]> page_forms).
Proof.
  intros Hk Hy Hi Hd. unfold parse_row. rewrite Hk, Hy. simpl. rewrite Hi, Hd.
  unfold widen. repeat case_match; try done.
  by rewrite list_insert_id.
Qed.

Lemma parse_row_unseen page_forms row k y :
  row_form_number row = inr k ->
  row_current_year row = inr y ->
  is_key_in_dict k page_forms = None ->
  parse_row page_forms row =
    res_bind (row_form_title row) (fun t => inr (page_forms ++ [mkForm k t y y])).
Proof. intros Hk Hy Hi. unfold parse_row. rewrite Hk, Hy. simpl. by rewrite Hi. Qed.

Lemma parse_row_inr page_forms row page_forms' :
  parse_row page_forms row = inr page_forms' ->
  exists k y, row_form_number row = inr k /\ row_current_year row = inr y /\
    ((is_key_in_dict k page_forms = None /\
      exists t, row_form_title row = inr t /\
                page_forms' = page_forms ++ [mkForm k t y y])
     \/ (exists i d, is_key_in_dict k page_forms = Some i /\
                     page_forms !! i = Some d /\ form_number d = k /\
                     page_forms' = <[i := widen d y]> page_forms)).
Proof.
  intros H.
  destruct (row_form_number row) as [e|k] eqn:Hk; [by unfold parse_row in H; rewrite Hk in H|].
  destruct (row_current_year row) as [e|y] eqn:Hy;
    [by unfold parse_row in H; rewrite Hk, Hy in H|].
  exists k, y. split; [done|]. split; [done|].
  destruct (is_key_in_dict k page_forms) as [i|] eqn:Hi.
  - right. destruct (is_key_in_dict_Some _ _ _ Hi) as (d & Hd & Hkd & _).
    exists i, d. rewrite (parse_row_seen _ _ _ _ _ _ Hk Hy Hi Hd) in H.
    by injection H as <-.
  - left. split; [done|]. rewrite (parse_row_unseen _ _ _ _ Hk Hy Hi) in H.
    destruct (row_form_title row) as [e|t]; [done|].
    exists t. split; [done|]. simpl in H. by injection H as <-.
Qed.

Lemma parse_row_inl_key_year page_forms row :
  (forall k, row_form_number row <> inr k) \/ (forall y, row_current_year row <> inr y) ->
  exists e, parse_row page_forms row = inl e.
Proof.
  intros [H|H]; unfold parse_row.
  - destruct (row_form_number row) as [e|k]; [by exists e | by destruct (H k)].
  - destruct (row_form_number row) as [e|k]; [by exists e|]. simpl.
    destruct (row_current_year row) as [e|y]; [by exists e | by destruct (H y)].
Qed.

(** ** The loop of [parse_page_forms_json] as a fold *)

Lemma add_errors_nil w : add_errors w [] = w.
Proof. destruct w. unfold add_errors. simpl. by rewrite app_nil_r. Qed.

Lemma add_errors_app w l1 l2 :
  add_errors (add_errors w l1) l2 = add_errors w (l1 ++ l2).
Proof. unfold add_errors. simpl. by rewrite app_assoc. Qed.

Lemma page_forms_loop_run rows page_forms w :
  page_forms_loop rows page_forms w =
    (add_errors w (parse_errors rows page_forms),
     inr (fold_left fold_row rows page_forms)).
Proof.
  revert page_forms w. induction rows as [|row rows IH]; intros page_forms w.
  - simpl. by rewrite add_errors_nil.
  - cbn [page_forms_loop parse_errors fold_left].
    unfold mbind, M_bind, try_except, lift, fold_row.
    destruct (parse_row page_forms row) as [e|page_forms'].
    + unfold logger_error, mret, M_ret. rewrite IH.
      unfold add_errors. simpl. by rewrite <- app_assoc.
    + by rewrite IH.
Qed.

Lemma parse_page_forms_json_run rows w :
  parse_page_forms_json rows w =
    (add_errors w (parse_errors rows []),
     inr (json_dumps <$> fold_left fold_row rows [])).
Proof.
  unfold parse_page_forms_json, mbind, M_bind. by rewrite page_forms_loop_run.
Qed.

(** ** Invariants of the fold *)

Lemma keys_insert_widen page_forms i d y :
  page_forms !! i = Some d -> keys (<[i := widen d y]> page_forms) = keys page_forms.
Proof.
  intros H. unfold keys. rewrite list_fmap_insert, widen_form_number.
  apply list_insert_id. by rewrite list_lookup_fmap, H.
Qed.

Lemma parse_row_NoDup page_forms row page_forms' :
  parse_row page_forms row = inr page_forms' ->
  NoDup (keys page_forms) -> NoDup (keys page_forms').
Proof.
  intros H Hnd.
  destruct (parse_row_inr _ _ _ H) as (k & y & _ & _ & [(Hi & t & _ & ->)|(i & d & _ & Hd & _ & ->)]).
  - unfold keys. rewrite fmap_app. apply NoDup_app. split; [done|].
    split; [|apply NoDup_singleton].
    intros x Hx Hx'. apply list_elem_of_singleton in Hx'. subst x.
    by apply is_key_in_dict_None in Hi.
  - by rewrite keys_insert_widen.
Qed.

Lemma parse_row_ordered page_forms row page_forms' :
  parse_row page_forms row = inr page_forms' ->
  Forall ordered page_forms -> Forall ordered page_forms'.
Proof.
  intros H Hord.
  destruct (parse_row_inr _ _ _ H) as (k & y & _ & _ & [(Hi & t & _ & ->)|(i & d & _ & Hd & _ & ->)]).
  - apply Forall_app. split; [done|]. apply Forall_singleton. unfold ordered. simpl. lia.
  - apply Forall_insert; [done|]. apply widen_ordered.
    by apply (Forall_lookup_1 _ _ _ _ Hord Hd).
Qed.

Lemma fold_row_NoDup page_forms row :
  NoDup (keys page_forms) -> NoDup (keys (fold_row page_forms row)).
Proof.
  unfold fold_row. destruct (parse_row page_forms row) eqn:H; [done|].
  by apply parse_row_NoDup with (1 := H).
Qed.

Lemma fold_row_ordered page_forms row :
  Forall ordered page_forms -> Forall ordered (fold_row page_forms row).
Proof.
  unfold fold_row. destruct (parse_row page_forms row) eqn:H; [done|].
  by apply parse_row_ordered with (1 := H).
Qed.

Lemma fold_rows_invariant (P : list Form -> Prop) rows page_forms :
  (forall pf row, P pf -> P (fold_row pf row)) ->
  P page_forms -> P (fold_left fold_row rows page_forms).
Proof.
  intros Hstep. revert page_forms.
  induction rows as [|row rows IH]; intros page_forms HP; simpl; [done|].
  apply IH. by apply Hstep.
Qed.

(** ** Properties of the aggregation *)

(** C10. A single call of [parse_page_forms_json] always returns, and the
    records it has built carry pairwise distinct [form_number]s: the list
    it returns is the serialization of a list of records without duplicate
    key. *)
Theorem page_forms_keys_distinct (rows : list Row) (w : World) :
  exists forms w',
    page_forms_loop rows [] w = (w', inr forms) /\
    parse_page_forms_json rows w = (w', inr (json_dumps <$> forms)) /\
    NoDup (keys forms).
Proof.
  exists (fold_left fold_row rows []), (add_errors w (parse_errors rows [])).
  split; [apply page_forms_loop_run|]. split; [apply parse_page_forms_json_run|].
  apply (fold_rows_invariant (fun pf => NoDup (keys pf))).
  - intros pf row. apply fold_row_NoDup.
  - apply NoDup_nil_2.
Qed.

(** C6. After every fold operation, that is after any number [n] of the
    rows of a page, every record of [page_forms] has
    [min_year <= max_year]; a first occurrence of a key appends a record
    with both bounds equal to the year of the row, and an update of a
    record in order leaves it in order. *)
Theorem min_year_le_max_year (rows : list Row) (n : nat) (w : World) :
  (exists forms w',
     page_forms_loop (take n rows) [] w = (w', inr forms) /\
     Forall (fun d => min_year d <= max_year d) forms) /\
  (forall page_forms row k y,
     row_form_number row = inr k -> row_current_year row = inr y ->
     is_key_in_dict k page_forms = None ->
     forall page_forms', parse_row page_forms row = inr page_forms' ->
       exists d, page_forms' = page_forms ++ [d] /\
                 form_number d = k /\ min_year d = y /\ max_year d = y) /\
  (forall page_forms row page_forms',
     parse_row page_forms row = inr page_forms' ->
     Forall (fun d => min_year d <= max_year d) page_forms ->
     Forall (fun d => min_year d <= max_year d) page_forms').
Proof.
  split; [|split].
  - exists (fold_left fold_row (take n rows) []),
           (add_errors w (parse_errors (take n rows) [])).
    split; [apply page_forms_loop_run|].
    apply (fold_rows_invariant (Forall ordered)).
    + intros pf row. apply fold_row_ordered.
    + apply Forall_nil_2.
  - intros page_forms row k y Hk Hy Hi page_forms' H.
    rewrite (parse_row_unseen _ _ _ _ Hk Hy Hi) in H.
    destruct (row_form_title row) as [e|t]; [done|]. simpl in H.
    injection H as <-. by eexists.
  - intros page_forms row page_forms' H. by apply parse_row_ordered with (1 := H).
Qed.

(** C9. Folding a row whose key is already in [page_forms], at index [i]:
    the row cannot fail, nothing is logged, and [page_forms] changes at
    index [i] only, where the record keeps its [form_number] and its
    [form_title] and at most one of [min_year] and [max_year] changes. *)
Theorem fold_seen_key_frame (page_forms : list Form) (row : Row) (k : string)
    (y : Z) (i : nat) (w : World) :
  row_form_number row = inr k ->
  row_current_year row = inr y ->
  is_key_in_dict k page_forms = Some i ->
  exists d d',
    page_forms !! i = Some d /\
    page_forms_loop [row] page_forms w = (w, inr (<[i := d']> page_forms)) /\
    form_number d' = form_number d /\
    form_title d' = form_title d /\
    (min_year d' = min_year d \/ max_year d' = max_year d) /\
    length (<[i := d']> page_forms) = length page_forms /\
    (forall j, j <> i -> <[i := d']> page_forms !! j = page_forms !! j).
Proof.
  intros Hk Hy Hi.
  destruct (is_key_in_dict_Some _ _ _ Hi) as (d & Hd & _ & _).
  exists d, (widen d y). split; [done|]. split.
  - rewrite page_forms_loop_run. simpl.
    unfold fold_row. rewrite (parse_row_seen _ _ _ _ _ _ Hk Hy Hi Hd).
    by rewrite add_errors_nil.
  - split; [apply widen_form_number|]. split; [apply widen_form_title|].
    split; [apply widen_one_bound|]. split; [apply length_insert|].
    intros j Hj. by apply list_lookup_insert_ne.
Qed.

Lemma fold_seen_key_frame_witness :
  exists d d',
    [mkForm "1040" "Individual Tax Return" 2019 2019] !! 0%nat = Some d /\
    page_forms_loop [row_1040_2020] [mkForm "1040" "Individual Tax Return" 2019 2019] world0
      = (world0, inr (<[0%nat := d']> [mkForm "1040" "Individual Tax Return" 2019 2019])) /\
    form_number d' = form_number d /\
    form_title d' = form_title d /\
    (min_year d' = min_year d \/ max_year d' = max_year d) /\
    length (<[0%nat := d']> [mkForm "1040" "Individual Tax Return" 2019 2019]) = 1%nat /\
    (forall j, j <> 0%nat ->
       <[0%nat := d']> [mkForm "1040" "Individual Tax Return" 2019 2019] !! j
       = [mkForm "1040" "Individual Tax Return" 2019 2019] !! j).
Proof.
  apply (fold_seen_key_frame [mkForm "1040" "Individual Tax Return" 2019 2019]
           row_1040_2020 "1040" 2020 0 world0); reflexivity.
Defined.

(** ** Rows that share one key *)

Lemma valid_row_spec k row :
  valid_row k row = true ->
  row_form_number row = inr k /\ row_current_year row = inr (year_of row) /\
  exists t, row_form_title row = inr t.
Proof.
  unfold valid_row, year_of.
  destruct (row_form_number row) as [|k']; [done|].
  destruct (row_current_year row) as [|y]; [done|].
  destruct (row_form_title row) as [|t]; [done|].
  intros H. apply String.eqb_eq in H. subst k'. eauto.
Qed.

Lemma widen_eq d y :
  ordered d ->
  widen d y = mkForm (form_number d) (form_title d)
                (Z.min (min_year d) y) (Z.max (max_year d) y).
Proof.
  unfold ordered, widen. destruct d as [k t lo hi]. simpl. intros H.
  destruct (Z.gtb_spec lo y); [unfold set_min_year; simpl; f_equal; lia|].
  destruct (Z.ltb_spec hi y); unfold set_max_year; simpl; f_equal; lia.
Qed.

Lemma fold_row_first k row :
  valid_row k row = true ->
  exists t, row_form_title row = inr t /\
            fold_row [] row = [mkForm k t (year_of row) (year_of row)].
Proof.
  intros H. destruct (valid_row_spec _ _ H) as (Hk & Hy & t & Ht).
  exists t. split; [done|]. unfold fold_row.
  rewrite (parse_row_unseen [] row k (year_of row) Hk Hy eq_refl), Ht. done.
Qed.

Lemma fold_row_single d row :
  valid_row (form_number d) row = true ->
  fold_row [d] row = [widen d (year_of row)].
Proof.
  intros H. destruct (valid_row_spec _ _ H) as (Hk & Hy & _).
  unfold fold_row.
  rewrite (parse_row_seen [d] row (form_number d) (year_of row) 0 d Hk Hy); [done| |done].
  unfold is_key_in_dict. simpl. by rewrite String.eqb_refl.
Qed.

Lemma fold_rows_single rows d :
  forallb (valid_row (form_number d)) rows = true ->
  fold_left fold_row rows [d] = [fold_left widen (year_of <$> rows) d].
Proof.
  revert d. induction rows as [|row rows IH]; intros d H; [done|].
  simpl in H. apply andb_true_iff in H as [Hrow Hrows]. simpl.
  rewrite fold_row_single by done. apply IH. by rewrite widen_form_number.
Qed.

Lemma fold_widen_spec ys d :
  ordered d ->
  let r := fold_left widen ys d in
  form_number r = form_number d /\ form_title r = form_title d /\ ordered r /\
  min_year r = fold_left Z.min ys (min_year d) /\
  max_year r = fold_left Z.max ys (max_year d).
Proof.
  revert d. induction ys as [|y ys IH]; intros d Hd; simpl; [done|].
  destruct (IH (widen d y) (widen_ordered _ _ Hd)) as (-> & -> & Ho & -> & ->).
  destruct (widen_bounds d y Hd) as [-> ->].
  by rewrite widen_form_number, widen_form_title.
Qed.

Lemma fold_min_spec ys m :
  fold_left Z.min ys m ∈ m :: ys /\ forall y, y ∈ m :: ys -> fold_left Z.min ys m <= y.
Proof.
  revert m. induction ys as [|y0 ys IH]; intros m; simpl.
  - split; [left|]. intros y Hy. apply list_elem_of_singleton in Hy. lia.
  - destruct (IH (Z.min m y0)) as [Hin Hle]. split.
    + apply elem_of_cons in Hin as [Hin|Hin]; [|by do 2 right].
      rewrite Hin. destruct (Z.min_spec m y0) as [[_ ->]|[_ ->]]; [left | right; left].
    + intros y Hy.
      assert (Hm : fold_left Z.min ys (Z.min m y0) <= Z.min m y0) by (apply Hle; left).
      apply elem_of_cons in Hy as [->|Hy]; [lia|].
      apply elem_of_cons in Hy as [->|Hy]; [lia|].
      apply Hle. by right.
Qed.

Lemma fold_max_spec ys m :
  fold_left Z.max ys m ∈ m :: ys /\ forall y, y ∈ m :: ys -> y <= fold_left Z.max ys m.
Proof.
  revert m. induction ys as [|y0 ys IH]; intros m; simpl.
  - split; [left|]. intros y Hy. apply list_elem_of_singleton in Hy. lia.
  - destruct (IH (Z.max m y0)) as [Hin Hle]. split.
    + apply elem_of_cons in Hin as [Hin|Hin]; [|by do 2 right].
      rewrite Hin. destruct (Z.max_spec m y0) as [[_ ->]|[_ ->]]; [right; left | left].
    + intros y Hy.
      assert (Hm : Z.max m y0 <= fold_left Z.max ys (Z.max m y0)) by (apply Hle; left).
      apply elem_of_cons in Hy as [->|Hy]; [lia|].
      apply elem_of_cons in Hy as [->|Hy]; [lia|].
      apply Hle. by right.
Qed.

(** The record a page of valid rows of one key folds into. *)
Lemma fold_rows_same_key k rows :
  rows <> [] -> forallb (valid_row k) rows = true ->
  exists r, fold_left fold_row rows [] = [r] /\
    form_number r = k /\ ordered r /\
    min_year r ∈ year_of <$> rows /\ (forall y, y ∈ year_of <$> rows -> min_year r <= y) /\
    max_year r ∈ year_of <$> rows /\ (forall y, y ∈ year_of <$> rows -> y <= max_year r).
Proof.
  destruct rows as [|row rows]; [done|]. intros _ H.
  simpl in H. apply andb_true_iff in H as [Hrow Hrows].
  destruct (fold_row_first _ _ Hrow) as (t & _ & Hfirst).
  set (d := mkForm k t (year_of row) (year_of row)) in *.
  assert (Hd : ordered d) by (unfold ordered; simpl; lia).
  exists (fold_left widen (year_of <$> rows) d). simpl. rewrite Hfirst.
  split; [by apply fold_rows_single|].
  destruct (fold_widen_spec (year_of <$> rows) d Hd) as (-> & _ & Ho & -> & ->).
  split; [done|]. split; [done|]. simpl.
  destruct (fold_min_spec (year_of <$> rows) (year_of row)) as [? ?].
  destruct (fold_max_spec (year_of <$> rows) (year_of row)) as [? ?].
  done.
Qed.

Lemma parse_errors_single rows d :
  forallb (valid_row (form_number d)) rows = true -> parse_errors rows [d] = [].
Proof.
  revert d. induction rows as [|row rows IH]; intros d H; [done|].
  simpl in H. apply andb_true_iff in H as [Hrow Hrows]. simpl.
  pose proof (fold_row_single d row Hrow) as Hf. unfold fold_row in Hf.
  destruct (valid_row_spec _ _ Hrow) as (Hk & Hy & _).
  rewrite (parse_row_seen [d] row (form_number d) (year_of row) 0 d Hk Hy);
    [| by unfold is_key_in_dict; simpl; rewrite String.eqb_refl | done].
  apply IH. by rewrite widen_form_number.
Qed.

Lemma parse_errors_same_key k rows :
  forallb (valid_row k) rows = true -> parse_errors rows [] = [].
Proof.
  destruct rows as [|row rows]; [done|]. intros H.
  simpl in H. apply andb_true_iff in H as [Hrow Hrows].
  destruct (valid_row_spec _ _ Hrow) as (Hk & Hy & t & Ht). simpl.
  rewrite (parse_row_unseen [] row k (year_of row) Hk Hy eq_refl), Ht. simpl.
  by apply parse_errors_single.
Qed.

Lemma forallb_take {A} (f : A -> bool) n l :
  forallb f l = true -> forallb f (take n l) = true.
Proof.
  rewrite !forallb_forall. intros H x Hx. apply H.
  apply list_elem_of_In. apply list_elem_of_In in Hx.
  by apply (subseteq_take n l).
Qed.

(** C2. Rows that share one key, in any order: the page folds into a single
    record whose [min_year] is the least and whose [max_year] is the greatest
    of the years of the rows, whatever the order of the rows; the first row
    inserts the record with both bounds equal to its year, and every later
    row replaces the bounds by the minimum and the maximum with its year. *)
Theorem fold_same_key_extrema (k : string) (rows : list Row) (w : World) :
  rows <> [] ->
  forallb (valid_row k) rows = true ->
  exists r,
    page_forms_loop rows [] w = (w, inr [r]) /\
    form_number r = k /\
    min_year r ∈ year_of <$> rows /\
    (forall y, y ∈ year_of <$> rows -> min_year r <= y) /\
    max_year r ∈ year_of <$> rows /\
    (forall y, y ∈ year_of <$> rows -> y <= max_year r) /\
    (forall rows', rows' ≡ₚ rows ->
       exists r', page_forms_loop rows' [] w = (w, inr [r']) /\
                  form_number r' = k /\
                  min_year r' = min_year r /\ max_year r' = max_year r) /\
    (forall row, rows !! 0%nat = Some row ->
       exists t, page_forms_loop (take 1 rows) [] w
                 = (w, inr [mkForm k t (year_of row) (year_of row)])) /\
    (forall n d row,
       page_forms_loop (take (S n) rows) [] w = (w, inr [d]) ->
       rows !! S n = Some row ->
       page_forms_loop (take (S (S n)) rows) [] w
       = (w, inr [mkForm (form_number d) (form_title d)
                    (Z.min (min_year d) (year_of row))
                    (Z.max (max_year d) (year_of row))])).
Proof.
  intros Hne Hvalid.
  assert (Hrun : forall l, forallb (valid_row k) l = true ->
            page_forms_loop l [] w = (w, inr (fold_left fold_row l []))).
  { intros l Hl. rewrite page_forms_loop_run, (parse_errors_same_key k) by done.
    by rewrite add_errors_nil. }
  destruct (fold_rows_same_key k rows Hne Hvalid)
    as (r & Hr & Hk & Hord & Hmin & Hlo & Hmax & Hhi).
  exists r. rewrite (Hrun rows Hvalid), Hr.
  do 6 (split; [done|]). split; [|split].
  - intros rows' Hperm.
    assert (Hvalid' : forallb (valid_row k) rows' = true).
    { apply forallb_forall. intros x Hx.
      apply (proj1 (forallb_forall _ _) Hvalid).
      by apply (Permutation_in _ Hperm). }
    assert (Hne' : rows' <> []).
    { intros ->. apply Permutation_nil in Hperm. by apply Hne. }
    destruct (fold_rows_same_key k rows' Hne' Hvalid')
      as (r' & Hr' & Hk' & _ & Hmin' & Hlo' & Hmax' & Hhi').
    exists r'. rewrite (Hrun rows' Hvalid'), Hr'.
    split; [done|]. split; [done|].
    assert (Hy : year_of <$> rows' ≡ₚ year_of <$> rows) by by apply fmap_Permutation.
    rewrite Hy in Hmin', Hmax'.
    pose proof (Hlo _ Hmin'). pose proof (Hhi _ Hmax').
    rewrite <- Hy in Hmin, Hmax.
    pose proof (Hlo' _ Hmin). pose proof (Hhi' _ Hmax). lia.
  - intros row Hrow. destruct rows as [|row0 rows]; [done|].
    simpl in Hrow. injection Hrow as ->.
    simpl in Hvalid. apply andb_true_iff in Hvalid as [Hv _].
    destruct (fold_row_first _ _ Hv) as (t & _ & Hfirst). exists t.
    cbn [take]. rewrite take_0. rewrite Hrun by (simpl; by rewrite Hv).
    simpl. by rewrite Hfirst.
  - intros n d row Hd Hrow.
    assert (HvS : forallb (valid_row k) (take (S n) rows) = true)
      by by apply forallb_take.
    assert (HvSS : forallb (valid_row k) (take (S (S n)) rows) = true)
      by by apply forallb_take.
    rewrite (Hrun _ HvS) in Hd. injection Hd as Hd.
    rewrite (Hrun _ HvSS). do 2 f_equal.
    rewrite (take_S_r rows (S n) row Hrow), fold_left_app, Hd. simpl.
    assert (Hnz : take (S n) rows <> []) by (by destruct rows).
    destruct (fold_rows_same_key k _ Hnz HvS) as (d' & Hd' & Hkd & Hordd & _).
    rewrite Hd in Hd'. injection Hd' as <-.
    assert (Hvr : valid_row (form_number d) row = true).
    { rewrite Hkd. apply (proj1 (forallb_forall _ _) Hvalid).
      apply list_elem_of_In. by apply list_elem_of_lookup_2 with (S n). }
    rewrite fold_row_single by done. by rewrite widen_eq.
Qed.

Lemma fold_same_key_extrema_witness :
  exists r,
    page_forms_loop [row_1040_2019; row_1040_2020; row_1040_2017] [] world0
      = (world0, inr [r]) /\
    form_number r = "1040" /\ min_year r = 2017 /\ max_year r = 2020.
Proof.
  destruct (fold_same_key_extrema "1040"
              [row_1040_2019; row_1040_2020; row_1040_2017] world0)
    as (r & Hrun & Hk & _); [done | reflexivity |].
  exists r. split; [exact Hrun|]. split; [exact Hk|].
  vm_compute in Hrun. injection Hrun as <-. split; reflexivity.
Defined.

(** ** The disk *)

(** [mkdir] and [open] read the disk only, and change it only by adding
    directories and by emptying the file that is opened. *)
Lemma prepare_file_cases k path w :
  exists d,
    dirs w ⊆ d /\
    ((exists e, prepare_file k path w
                = (mkWorld (files w) d (requests w) (errors w), inl e)) \/
     prepare_file k path w
     = (mkWorld (<[path := []]> (files w)) d (requests w) (errors w), inr tt)).
Proof.
  unfold prepare_file, mbind, M_bind, mkdir.
  destruct (has_nul k).
  { exists (dirs w). split; [done|]. left. eexists. by destruct w. }
  destruct (List.find (blocked w) _) as [q|].
  { exists (dirs w). split; [done|]. left. eexists. by destruct w. }
  match goal with |- context [mkWorld (files w) ?d' (requests w) (errors w)] =>
    set (d1 := d') end.
  exists d1. split; [subst d1; set_solver|].
  unfold open_wb. cbn [files dirs requests errors].
  set (w1 := mkWorld (files w) d1 (requests w) (errors w)).
  destruct (has_nul path); [left; by eexists|].
  destruct (match parent_dir path with
            | Some d => if is_dir w1 d then None
                        else if is_file w1 d then Some NotADirectoryError
                        else Some FileNotFoundError
            | None => None
            end) as [e|]; [left; by eexists|].
  destruct (is_dir w1 path); [left; by eexists | by right].
Qed.

(** The disk part of [prepare_file] does not depend on the log or on the
    requests. *)
Lemma prepare_file_disk k path w1 w2 :
  files w1 = files w2 -> dirs w1 = dirs w2 ->
  files (prepare_file k path w1).1 = files (prepare_file k path w2).1 /\
  dirs (prepare_file k path w1).1 = dirs (prepare_file k path w2).1 /\
  (prepare_file k path w1).2 = (prepare_file k path w2).2.
Proof.
  destruct w1 as [f1 d1 r1 e1], w2 as [f2 d2 r2 e2]. simpl. intros -> ->.
  unfold prepare_file, mbind, M_bind, mkdir, open_wb, blocked, is_dir, is_file.
  cbn [files dirs requests errors].
  destruct (has_nul k); [done|].
  destruct (List.find _ _) as [q|]; [done|]. cbn [files dirs requests errors].
  destruct (has_nul path); [done|].
  destruct (match parent_dir path with Some _ => _ | None => _ end) as [e|]; [done|].
  by destruct (bool_decide _).
Qed.

Lemma apply_outcome_requests w o :
  requests (apply_outcome w o) = requests w ++ outcome_requests o.
Proof.
  destruct o as [|req e|href k path data]; simpl; [by rewrite app_nil_r | done |].
  set (w1 := mkWorld (files w) (dirs w) (requests w ++ [href]) (errors w)).
  destruct (prepare_file_cases k path w1) as (d & _ & [[e ->]| ->]); done.
Qed.

(** One row changes the log by at most one line, a line of the download
    pass with its exception. *)
Lemma apply_outcome_errors w o :
  exists l, errors (apply_outcome w o) = errors w ++ l /\
    (length l <= 1)%nat /\
    forall e, e ∈ l -> log_text e = "Can not save file, error: " /\ log_cause e <> None.
Proof.
  assert (Hone : forall e, exists l,
            errors w ++ [mkLog "Can not save file, error: " (Some e)] = errors w ++ l /\
            (length l <= 1)%nat /\
            forall x, x ∈ l -> log_text x = "Can not save file, error: " /\
                               log_cause x <> None).
  { intros e. eexists. split; [done|]. split; [simpl; lia|].
    by intros x ->%list_elem_of_singleton. }
  assert (Hnone : exists l, errors w = errors w ++ l /\ (length l <= 1)%nat /\
            forall x, x ∈ l -> log_text x = "Can not save file, error: " /\
                               log_cause x <> None).
  { exists []. rewrite app_nil_r. split; [done|]. split; [simpl; lia|].
    by intros x ?%elem_of_nil. }
  destruct o as [|req e|href k path data]; simpl; [done | apply Hone |].
  set (w1 := mkWorld (files w) (dirs w) (requests w ++ [href]) (errors w)).
  destruct (prepare_file_cases k path w1) as (d & _ & [[e ->]| ->]);
    [apply Hone | done].
Qed.



(** Worlds with the same disk and the same requests stay so, row by row, and
    their logs grow by the same number of lines. *)
Lemma apply_outcome_same_disk w1 w2 o :
  files w1 = files w2 -> dirs w1 = dirs w2 -> requests w1 = requests w2 ->
  files (apply_outcome w1 o) = files (apply_outcome w2 o) /\
  dirs (apply_outcome w1 o) = dirs (apply_outcome w2 o) /\
  requests (apply_outcome w1 o) = requests (apply_outcome w2 o) /\
  (length (errors (apply_outcome w1 o)) + length (errors w2)
   = length (errors (apply_outcome w2 o)) + length (errors w1))%nat.
Proof.
  intros Hf Hd Hr.
  destruct o as [|req e|href k path data]; simpl.
  - repeat split; try done. lia.
  - rewrite Hr, !length_app. simpl. repeat split; try done. lia.
  - set (v1 := mkWorld (files w1) (dirs w1) (requests w1 ++ [href]) (errors w1)).
    set (v2 := mkWorld (files w2) (dirs w2) (requests w2 ++ [href]) (errors w2)).
    destruct (prepare_file_disk k path v1 v2 Hf Hd) as (Hf' & Hd' & Hres).
    destruct (prepare_file_cases k path v1) as (d1 & _ & [[e1 H1]|H1]);
      destruct (prepare_file_cases k path v2) as (d2 & _ & [[e2 H2]|H2]);
      rewrite H1, H2 in *; cbn [fst snd files dirs requests errors] in *;
      try discriminate; subst d2;
      rewrite ?length_app; simpl; repeat split; try done; try lia; congruence.
Qed.

Lemma fold_outcomes_same_disk os : forall w1 w2,
  files w1 = files w2 -> dirs w1 = dirs w2 -> requests w1 = requests w2 ->
  files (fold_left apply_outcome os w1) = files (fold_left apply_outcome os w2) /\
  dirs (fold_left apply_outcome os w1) = dirs (fold_left apply_outcome os w2) /\
  requests (fold_left apply_outcome os w1) = requests (fold_left apply_outcome os w2) /\
  (length (errors (fold_left apply_outcome os w1)) + length (errors w2)
   = length (errors (fold_left apply_outcome os w2)) + length (errors w1))%nat.
Proof.
  induction os as [|o os IH]; intros w1 w2 Hf Hd Hr; simpl.
  - repeat split; try done. lia.
  - destruct (apply_outcome_same_disk w1 w2 o Hf Hd Hr) as (Hf' & Hd' & Hr' & Hl').
    destruct (IH _ _ Hf' Hd' Hr') as (Hf2 & Hd2 & Hr2 & Hl2).
    repeat split; try done. lia.
Qed.

(** ** The fetcher *)

Section Fetch.

Variable net : string -> Res Response.

Lemma load_page_run url w :
  load_page net url w =
    (sent w url,
     match net url with
     | inl e => inl e
     | inr resp =>
         if (200 <=? status resp) && (status resp <=? 299)
         then inr (Some (body resp))
         else inl AttributeError
     end).
Proof.
  unfold load_page, mbind, M_bind, session_get, lift, sent. simpl.
  destruct (net url) as [e|resp]; [done|].
  by destruct ((200 <=? status resp) && (status resp <=? 299)).
Qed.

Lemma load_page_fetched url w b :
  fetched net url = Some b -> load_page net url w = (sent w url, inr (Some b)).
Proof.
  rewrite load_page_run. unfold fetched.
  destruct (net url) as [e|resp]; [done|].
  destruct ((200 <=? status resp) && (status resp <=? 299)); [|done].
  by intros [= <-].
Qed.

Lemma load_page_not_fetched url w :
  fetched net url = None -> exists e, load_page net url w = (sent w url, inl e).
Proof.
  rewrite load_page_run. unfold fetched.
  destruct (net url) as [e|resp]; [by exists e|].
  destruct ((200 <=? status resp) && (status resp <=? 299)); [done|].
  by exists AttributeError.
Qed.

(** ** The downloader *)

(** Closes the cases where the row raised and the handler logged. *)
Local Ltac raised :=
  unfold logger_error, apply_outcome, sent; simpl; by rewrite ?app_nil_r.

Lemma store_step k path b w :
  try_except (mkdir k;; open_wb path;; write path (Some b))
    (fun e => logger_error "Can not save file, error: " (Some e)) w
  = (match prepare_file k path w with
     | (w1, inr _) =>
         mkWorld (<[path := body_bytes b]> (files w1)) (dirs w1) (requests w1) (errors w1)
     | (w1, inl e) =>
         mkWorld (files w1) (dirs w1) (requests w1)
           (errors w1 ++ [mkLog "Can not save file, error: " (Some e)])
     end, inr tt).
Proof.
  unfold try_except, prepare_file, mbind, M_bind.
  destruct (mkdir k w) as [w1 [e|[]]]; [done|].
  destruct (open_wb path w1) as [w2 [e|[]]]; done.
Qed.

Lemma save_row_step row w :
  try_except (save_row net row)
    (fun e => logger_error "Can not save file, error: " (Some e)) w
  = (apply_outcome w (save_outcome net row), inr tt).
Proof.
  unfold try_except, save_row, save_outcome, in_window, mbind, M_bind, lift.
  destruct (row_current_year row) as [e|y]; [raised|].
  destruct (row_form_number row) as [e|k]; [raised|].
  destruct ((MIN_YEAR <=? y) && (y <=? MAX_YEAR)); [|done].
  destruct (row_href row) as [e|href]; [raised|].
  rewrite load_page_run.
  destruct (net href) as [e|resp]; [raised|].
  destruct ((200 <=? status resp) && (status resp <=? 299)); [|raised].
  pose proof (store_step k (k +:+ "/" +:+ k +:+ "_" +:+ pretty y +:+ ".pdf")
                (body resp) (sent w href)) as Hstore.
  unfold try_except, mbind, M_bind in Hstore. exact Hstore.
Qed.

Lemma save_page_form_pdf_run rows w :
  save_page_form_pdf net rows w =
    (fold_left apply_outcome (save_outcome net <$> rows) w, inr tt).
Proof.
  revert w. induction rows as [|row rows IH]; intros w; [done|].
  cbn [save_page_form_pdf]. unfold mbind, M_bind at 1.
  rewrite save_row_step. simpl. apply IH.
Qed.

Lemma fold_outcomes_requests os w :
  requests (fold_left apply_outcome os w) = requests w ++ flat_map outcome_requests os.
Proof.
  revert w. induction os as [|o os IH]; intros w; simpl; [by rewrite app_nil_r|].
  by rewrite IH, apply_outcome_requests, <- app_assoc.
Qed.

Lemma save_page_form_pdf_requests rows w :
  requests (save_page_form_pdf net rows w).1 =
    requests w ++ artifact_requests net rows.
Proof.
  rewrite save_page_form_pdf_run. cbn [fst]. rewrite fold_outcomes_requests.
  f_equal. unfold artifact_requests.
  induction rows as [|row rows IH]; [done|].
  rewrite fmap_cons. cbn [flat_map]. by rewrite IH.
Qed.

End Fetch.

(** ** Properties of the fetcher and of the downloader *)

Lemma main_loop_page_raises net fuel pagination tasks w e :
  (load_page net (listing_url pagination) w).2 = inl e ->
  main_loop net (S fuel) pagination tasks w
  = (sent w (listing_url pagination), inl e).
Proof.
  intros H. cbn [main_loop]. unfold mbind, M_bind at 1.
  rewrite load_page_run in *. simpl in H. by rewrite H.
Qed.

(** C4 (defect of the code). For a response with status [status resp],
    [load_page] returns the raw body exactly when the status lies in
    200..299.  For any other status it does not log and return: reading
    [resp.status_code] for the message raises [AttributeError], the error log
    is left as it was, and the exception leaves [load_page]; in [main], where
    the call is not guarded, it ends the crawl. *)
Theorem load_page_status (net : string -> Res Response) (url : string)
    (resp : Response) (w : World) :
  net url = inr resp ->
  ((exists w', load_page net url w = (w', inr (Some (body resp))))
   <-> 200 <= status resp <= 299) /\
  (~ 200 <= status resp <= 299 ->
   load_page net url w = (sent w url, inl AttributeError) /\
   errors (load_page net url w).1 = errors w /\
   forall fuel pagination tasks,
     url = listing_url pagination ->
     main_loop net (S fuel) pagination tasks w = (sent w url, inl AttributeError)).
Proof.
  intros Hnet.
  assert (Hrun := load_page_run net url w). rewrite Hnet in Hrun.
  destruct ((200 <=? status resp) && (status resp <=? 299)) eqn:Hst.
  - apply andb_true_iff in Hst as [?%Z.leb_le ?%Z.leb_le].
    split; [split; [lia | by eexists] | lia].
  - assert (~ 200 <= status resp <= 299).
    { intros [H1 H2]. apply Z.leb_le in H1, H2. by rewrite H1, H2 in Hst. }
    split; [split; [|done] |].
    + intros [w' Hw']. rewrite Hrun in Hw'. done.
    + intros _. split; [done|]. split; [by rewrite Hrun|].
      intros fuel pagination tasks ->.
      apply main_loop_page_raises. by rewrite Hrun.
Qed.

Lemma load_page_status_witness :
  load_page net_404 (listing_url 0) world0
  = (sent world0 (listing_url 0), inl AttributeError) /\
  errors (load_page net_404 (listing_url 0) world0).1 = [] /\
  main_loop net_404 1 0 [] world0 = (sent world0 (listing_url 0), inl AttributeError).
Proof.
  destruct (load_page_status net_404 (listing_url 0)
              (mkResponse 404 (mkBody [] None)) world0 eq_refl) as [_ H].
  destruct H as (H1 & H2 & H3); [simpl; lia|].
  split; [exact H1|]. split; [exact H2|]. exact (H3 0%nat 0 [] eq_refl).
Defined.

Section Download.

Variable net : string -> Res Response.



End Download.

(** ** The pagination loop *)

Section Pagination.

Variable net : string -> Res Response.

Lemma main_loop_step fuel i tasks w :
  nonempty_page net i = true ->
  main_loop net (S fuel) (200 * Z.of_nat i) tasks w =
  main_loop net fuel (200 * Z.of_nat (S i)) (tasks ++ page_tasks net i)
    (process_page net w i).
Proof.
  unfold nonempty_page, process_page, page_tasks, page_at, listing_rows.
  destruct (fetched net (listing_url (200 * Z.of_nat i))) as [b|] eqn:Hf; [|done].
  destruct (body_table b) as [trs|] eqn:Ht; [|done]. simpl.
  destruct (drop 1 trs) as [|row rows] eqn:Hd; [done|]. intros _.
  unfold mbind, M_bind at 1. rewrite (load_page_fetched net _ w b Hf).
  unfold mbind, M_bind at 1. unfold mret, M_ret at 1.
  unfold mbind, M_bind at 1. unfold lift at 1. rewrite Ht. simpl attr_of. cbv iota.
  rewrite Hd.
  unfold mbind, M_bind at 1. rewrite parse_page_forms_json_run.
  unfold mbind, M_bind at 1. rewrite save_page_form_pdf_run.
  cbn [fst]. f_equal; [lia | by rewrite save_page_form_pdf_run].
Qed.

Lemma main_loop_stop fuel i tasks w :
  empty_page net i = true ->
  main_loop net (S fuel) (200 * Z.of_nat i) tasks w =
  (sent w (listing_url (200 * Z.of_nat i)), inr (Some tasks)).
Proof.
  unfold empty_page, listing_rows.
  destruct (fetched net (listing_url (200 * Z.of_nat i))) as [b|] eqn:Hf; [|done].
  destruct (body_table b) as [trs|] eqn:Ht; [|done]. simpl.
  destruct (drop 1 trs) as [|row rows] eqn:Hd; [|done]. intros _.
  unfold mbind, M_bind at 1. rewrite (load_page_fetched net _ w b Hf).
  unfold mbind, M_bind at 1. unfold mret, M_ret at 1.
  unfold mbind, M_bind at 1. unfold lift at 1. rewrite Ht. simpl attr_of. cbv iota.
  by rewrite Hd.
Qed.

Lemma main_loop_no_table fuel pagination tasks w b :
  fetched net (listing_url pagination) = Some b ->
  body_table b = None ->
  main_loop net (S fuel) pagination tasks w =
  (sent w (listing_url pagination), inl AttributeError).
Proof.
  intros Hf Ht. cbn [main_loop].
  unfold mbind, M_bind at 1. rewrite (load_page_fetched net _ w b Hf).
  unfold mbind, M_bind at 1. unfold mret, M_ret at 1.
  unfold mbind, M_bind at 1. unfold lift at 1. by rewrite Ht.
Qed.

Lemma main_loop_run n : forall i fuel tasks w,
  forallb (nonempty_page net) (seq i n) = true ->
  empty_page net (i + n) = true ->
  (n < fuel)%nat ->
  main_loop net fuel (200 * Z.of_nat i) tasks w =
  (sent (fold_left (process_page net) (seq i n) w)
        (listing_url (200 * Z.of_nat (i + n))),
   inr (Some (tasks ++ flat_map (page_tasks net) (seq i n)))).
Proof.
  induction n as [|n IH]; intros i fuel tasks w Hpages Hlast Hfuel.
  - destruct fuel as [|fuel]; [lia|]. rewrite Nat.add_0_r in *.
    rewrite main_loop_stop by done. simpl. by rewrite app_nil_r.
  - destruct fuel as [|fuel]; [lia|].
    simpl in Hpages. apply andb_true_iff in Hpages as [Hpage Hpages].
    rewrite main_loop_step by done.
    rewrite IH; [| done | by rewrite <- Nat.add_succ_comm in Hlast | lia].
    cbn [seq fold_left flat_map]. rewrite <- app_assoc.
    by rewrite <- Nat.add_succ_comm.
Qed.

Lemma main_loop_short fuel : forall n i tasks w,
  forallb (nonempty_page net) (seq i n) = true ->
  (fuel <= n)%nat ->
  (main_loop net fuel (200 * Z.of_nat i) tasks w).2 = inr None.
Proof.
  induction fuel as [|fuel IH]; intros n i tasks w Hpages Hfuel; [done|].
  destruct n as [|n]; [lia|].
  simpl in Hpages. apply andb_true_iff in Hpages as [Hpage Hpages].
  rewrite main_loop_step by done. apply IH with n; [done | lia].
Qed.

Lemma process_page_requests w i :
  requests (process_page net w i) = requests w ++ page_requests net i.
Proof.
  unfold process_page, page_requests.
  rewrite save_page_form_pdf_requests, parse_page_forms_json_run. simpl.
  by rewrite <- app_assoc.
Qed.

Lemma crawl_requests l w :
  requests (fold_left (process_page net) l w) =
  requests w ++ flat_map (page_requests net) l.
Proof.
  revert w. induction l as [|i l IH]; intros w; simpl; [by rewrite app_nil_r|].
  by rewrite IH, process_page_requests, <- app_assoc.
Qed.

End Pagination.

(** C3. A listing of [N] non-empty pages followed by an empty page: with
    fuel for more than [N] iterations the loop of [main] reaches its [break].
    The requests it has sent are, for each of the cursors 0, 200, ...,
    200 (N - 1) in turn, the listing page at that cursor followed by the
    artifact requests of its rows, and then one last listing page, at cursor
    200 N: [N + 1] listing requests in all, one per iteration, and [N]
    iterations or fewer do not reach the [break].  [main] itself then ends,
    with the [TypeError] of [asyncio.gather] as soon as one page was
    processed. *)
Theorem pagination_requests (net : string -> Res Response) (N fuel : nat) (w : World) :
  forallb (nonempty_page net) (seq 0 N) = true ->
  empty_page net N = true ->
  (N < fuel)%nat ->
  exists w' tasks,
    main_loop net fuel 0 [] w = (w', inr (Some tasks)) /\
    requests w' =
      requests w ++ flat_map (page_requests net) (seq 0 N)
                 ++ [listing_url (200 * Z.of_nat N)] /\
    (forall fuel', (fuel' <= N)%nat -> (main_loop net fuel' 0 [] w).2 = inr None) /\
    main net fuel w =
      (w', match N with O => inr (Some tt) | S _ => inl TypeError end).
Proof.
  intros Hpages Hlast Hfuel.
  pose proof (main_loop_run net N 0 fuel [] w Hpages Hlast Hfuel) as Hrun.
  change (200 * Z.of_nat 0) with 0 in Hrun. simpl "+"%nat in Hrun.
  eexists _, _. split; [exact Hrun|]. split; [|split].
  - cbn [requests sent]. by rewrite crawl_requests, <- app_assoc.
  - intros fuel' Hle. by apply (main_loop_short net fuel' N 0 [] w).
  - unfold main, mbind, M_bind at 1. rewrite Hrun.
    destruct N as [|N]; [done|]. cbn [seq flat_map page_tasks].
    by rewrite app_nil_l.
Qed.

Lemma pagination_requests_witness :
  exists w' tasks,
    main_loop net_example 2 0 [] world0 = (w', inr (Some tasks)) /\
    requests w' =
      [listing_url 0; "https://irs.example/f1040--2019.pdf";
       "https://irs.example/f1040--2020.pdf"; listing_url 200] /\
    main net_example 2 world0 = (w', inl TypeError).
Proof.
  destruct (pagination_requests net_example 1 2 world0) as (w' & tasks & H1 & H2 & _ & H3);
    [reflexivity | reflexivity | lia |].
  exists w', tasks. split; [exact H1|]. split; [|exact H3].
  rewrite H2. reflexivity.
Defined.

(** C7 (defect of the code). When the listing page is fetched but holds no
    table of class [picklist-dataTable], [soup.find] gives [None] and
    [table.find_all] raises [AttributeError]: the loop does not take the
    [break] of an empty page and [main] ends with the exception. *)
Theorem missing_table_raises (net : string -> Res Response) (pagination : Z)
    (fuel : nat) (tasks : list Task) (w : World) (b : Body) :
  fetched net (listing_url pagination) = Some b ->
  body_table b = None ->
  main_loop net (S fuel) pagination tasks w
  = (sent w (listing_url pagination), inl AttributeError) /\
  (pagination = 0 ->
   main net (S fuel) w = (sent w (listing_url 0), inl AttributeError)).
Proof.
  intros Hf Ht. split; [by apply main_loop_no_table with b|].
  intros ->. unfold main, mbind, M_bind at 1.
  by rewrite (main_loop_no_table net fuel 0 [] w b Hf Ht).
Qed.

Lemma missing_table_raises_witness :
  main_loop net_no_table 1 0 [] world0
  = (sent world0 (listing_url 0), inl AttributeError) /\
  main net_no_table 1 world0 = (sent world0 (listing_url 0), inl AttributeError).
Proof.
  destruct (missing_table_raises net_no_table 0 0 [] world0 (mkBody [] None)
              eq_refl eq_refl) as [H1 H2].
  split; [exact H1 | exact (H2 eq_refl)].
Defined.

(** ** The output of the crawl *)

Lemma flat_map_fmap {A B C} (f : B -> list C) (g : A -> B) (l : list A) :
  flat_map f (g <$> l) = flat_map (fun x => f (g x)) l.
Proof. induction l as [|x l IH]; [done|]. rewrite fmap_cons. simpl. by rewrite IH. Qed.

(** C1, as the code has it.  A listing of [N] non-empty pages followed by an
    empty page: what [main] collects is, page after page, the serialization
    of the records of that page alone followed by the [None] of the download
    pass.  The records of one page have pairwise distinct keys; nothing
    merges the records of different pages. *)
Theorem records_deduplicated_per_page (net : string -> Res Response)
    (N fuel : nat) (w : World) :
  forallb (nonempty_page net) (seq 0 N) = true ->
  empty_page net N = true ->
  (N < fuel)%nat ->
  exists w' (per_page : list (list Form)),
    main_loop net fuel 0 [] w
    = (w', inr (Some (flat_map (fun forms => [TaskForms (json_dumps <$> forms); TaskNone])
                        per_page))) /\
    length per_page = N /\
    forall i forms, per_page !! i = Some forms ->
      NoDup (keys forms) /\
      forall w0, exists w1, page_forms_loop (page_at net i) [] w0 = (w1, inr forms).
Proof.
  intros Hpages Hlast Hfuel.
  pose proof (main_loop_run net N 0 fuel [] w Hpages Hlast Hfuel) as Hrun.
  change (200 * Z.of_nat 0) with 0 in Hrun. simpl "+"%nat in Hrun.
  exists (sent (fold_left (process_page net) (seq 0 N) w) (listing_url (200 * Z.of_nat N))),
         ((fun i => fold_left fold_row (page_at net i) []) <$> seq 0 N).
  split; [|split].
  - rewrite Hrun, app_nil_l. by rewrite flat_map_fmap.
  - by rewrite length_fmap, length_seq.
  - intros i forms Hi. apply list_lookup_fmap_Some in Hi as (j & -> & Hj).
    apply lookup_seq in Hj as [-> _]. simpl. split.
    + apply (fold_rows_invariant (fun pf => NoDup (keys pf)));
        [intros pf row; apply fold_row_NoDup | apply NoDup_nil_2].
    + intros w0. eexists. apply page_forms_loop_run.
Qed.

Lemma records_deduplicated_per_page_witness :
  exists w' (per_page : list (list Form)),
    main_loop net_two_pages 3 0 [] world0
    = (w', inr (Some (flat_map (fun forms => [TaskForms (json_dumps <$> forms); TaskNone])
                        per_page))) /\
    length per_page = 2%nat.
Proof.
  destruct (records_deduplicated_per_page net_two_pages 2 3 world0)
    as (w' & per_page & H1 & H2 & _); [reflexivity | reflexivity | lia |].
  exists w', per_page. split; [exact H1 | exact H2].
Defined.

(** C1, as stated, fails: with the form 1040 on two pages, for 2019 on the
    first and for 2020 on the second, the output holds two records of key
    1040, one per page, with the year ranges 2019..2019 and 2020..2020. *)
Lemma records_not_merged_across_pages :
  exists w' tasks,
    main_loop net_two_pages 3 0 [] world0 = (w', inr (Some tasks)) /\
    aggregated_output tasks
    = [json_dumps (mkForm "1040" "Individual Tax Return" 2019 2019);
       json_dumps (mkForm "1040" "Individual Tax Return" 2020 2020)] /\
    ~ one_record_per_key (aggregated_output tasks).
Proof.
  eexists _, _. split; [vm_compute; reflexivity|].
  split; [vm_compute; reflexivity|].
  intros H.
  specialize (H 0%nat 1%nat (mkForm "1040" "Individual Tax Return" 2019 2019)
                (mkForm "1040" "Individual Tax Return" 2020 2020)).
  assert (0 = 1)%nat as Habs; [|done].
  apply H; vm_compute; reflexivity.
Qed.

(** ** Rows that raise *)

Lemma parse_errors_app l1 l2 page_forms :
  parse_errors (l1 ++ l2) page_forms =
  parse_errors l1 page_forms ++ parse_errors l2 (fold_left fold_row l1 page_forms).
Proof.
  revert page_forms. induction l1 as [|row l1 IH]; intros page_forms; [done|].
  simpl. unfold fold_row at 2.
  destruct (parse_row page_forms row) as [e|page_forms']; rewrite IH; done.
Qed.

Lemma unreadable_parse_row row page_forms :
  unreadable row = true -> exists e, parse_row page_forms row = inl e.
Proof.
  unfold unreadable. intros H. apply parse_row_inl_key_year.
  destruct (row_form_number row) as [|k]; [by left|].
  destruct (row_current_year row) as [|y]; [by right | done].
Qed.

Lemma unreadable_save_outcome net row :
  unreadable row = true -> exists e, save_outcome net row = Failed None e.
Proof.
  unfold unreadable, save_outcome.
  destruct (row_current_year row) as [e|y]; [by exists e; destruct (row_form_number row)|].
  destruct (row_form_number row) as [e|k]; [by exists e | done].
Qed.

(** C8, as the code has it.  A row whose key or year cannot be read (no link
    element, a link or a year cell without single text, a year that is no
    integer literal) is skipped by both passes with one logged error each,
    and the other rows of the batch are aggregated and downloaded exactly as
    without it. *)
Theorem unreadable_row_skipped (net : string -> Res Response)
    (pre : list Row) (bad : Row) (post : list Row) :
  unreadable bad = true ->
  skipped_in_isolation net pre bad post.
Proof.
  intros Hbad w.
  destruct (unreadable_parse_row bad (fold_left fold_row pre []) Hbad) as [e He].
  destruct (unreadable_save_outcome net bad Hbad) as [e' He'].
  rewrite !page_forms_loop_run, !save_page_form_pdf_run.
  cbn [fst snd errors add_errors].
  rewrite !parse_errors_app, !fold_left_app, !fmap_app, fmap_cons, He'.
  rewrite !fold_left_app.
  cbn [parse_errors fold_left].
  unfold fold_row at 2. rewrite He.
  set (u := fold_left apply_outcome (save_outcome net <$> pre) w).
  destruct (fold_outcomes_same_disk (save_outcome net <$> post)
              (apply_outcome u (Failed None e')) u)
    as (Hf & Hd & Hr & Hl); [done | done | by simpl; rewrite app_nil_r |].
  split; [done|]. split; [rewrite !length_app; cbn [length]; lia|].
  split; [done|]. split; [done|]. split; [done|].
  assert (Hone : length (errors (apply_outcome u (Failed None e'))) = S (length (errors u))).
  { simpl. rewrite length_app. simpl. lia. }
  lia.
Qed.

Lemma unreadable_row_skipped_witness :
  skipped_in_isolation net_example [row_1040_2019] row_bad_year [row_1040_2020].
Proof.
  apply (unreadable_row_skipped net_example [row_1040_2019] row_bad_year [row_1040_2020]).
  reflexivity.
Defined.

(** C8, as stated, fails for a missing title cell: after a row of the form
    1040 for 2019, a row of the same form for 2020 without title cell is
    malformed, yet it is not skipped: the aggregation widens the record to
    2019..2020 (without it: 2019..2019) and logs nothing. *)
Lemma missing_title_row_not_skipped :
  malformed row_no_title_2020 = true /\
  row_form_title row_no_title_2020 = inl AttributeError /\
  page_forms_loop [row_1040_2019; row_no_title_2020] [] world0
  = (world0, inr [mkForm "1040" "Individual Tax Return" 2019 2020]) /\
  files (save_page_form_pdf net_example [row_1040_2019; row_no_title_2020] world0).1
    !! "1040/1040_2020.pdf" = Some pdf_2020 /\
  ~ skipped_in_isolation net_example [row_1040_2019] row_no_title_2020 [].
Proof.
  split; [reflexivity|]. split; [reflexivity|]. split; [reflexivity|].
  split; [vm_compute; reflexivity|].
  intros H. destruct (H world0) as [H1 _]. vm_compute in H1. discriminate H1.
Qed.


(** ** Further properties of the key scan *)

(** [is_key_in_dict] gives the position of the first record with the key:
    the record there has the key and no record before it has; it gives
    [None] exactly when no record has the key (so always on the empty
    list). *)
Theorem is_key_in_dict_first_match (k : string) (array : list Form) :
  match is_key_in_dict k array with
  | Some i =>
      exists d, array !! i = Some d /\ form_number d = k /\
        forall j d', (j < i)%nat -> array !! j = Some d' -> form_number d' <> k
  | None => forall d, d ∈ array -> form_number d <> k
  end.
Proof.
  destruct (is_key_in_dict k array) as [i|] eqn:H.
  - destruct (is_key_in_dict_Some _ _ _ H) as (d & Hd & Hk & Hnot).
    exists d. split; [done|]. split; [done|].
    intros j d' Hj Hd' Heq. apply Hnot. unfold keys.
    apply list_elem_of_fmap. exists d'. split; [done|].
    apply list_elem_of_lookup. exists j. by rewrite lookup_take_lt.
  - apply is_key_in_dict_None in H. intros d Hd Heq. apply H.
    unfold keys. apply list_elem_of_fmap. by exists d.
Qed.

Lemma is_key_in_dict_from_keys i k l l' :
  keys l = keys l' -> is_key_in_dict_from i k l = is_key_in_dict_from i k l'.
Proof.
  revert i l'. induction l as [|d l IH]; intros i [|d' l'] H; try done.
  unfold keys in H. rewrite !fmap_cons in H. injection H as Hd Hl.
  simpl. rewrite Hd. destruct (String.eqb (form_number d') k); [done|].
  by apply IH.
Qed.

Lemma is_key_in_dict_from_snoc i k l d :
  k ∉ keys l -> form_number d = k ->
  is_key_in_dict_from i k (l ++ [d]) = Some (i + length l)%nat.
Proof.
  revert i. induction l as [|d0 l IH]; intros i Hk Hd; simpl.
  - rewrite Hd, String.eqb_refl. f_equal. lia.
  - unfold keys in Hk. rewrite fmap_cons, not_elem_of_cons in Hk.
    destruct Hk as [Hne Hk].
    destruct (String.eqb_spec (form_number d0) k) as [Heq|_]; [by destruct Hne|].
    rewrite IH by done. f_equal. lia.
Qed.

(** ** Further properties of the aggregation *)

Lemma fold_rows_snoc rows row page_forms :
  fold_left fold_row (rows ++ [row]) page_forms
  = fold_row (fold_left fold_row rows page_forms) row.
Proof. by rewrite fold_left_app. Qed.

Lemma fold_rows_ordered rows : Forall ordered (fold_left fold_row rows []).
Proof.
  apply (fold_rows_invariant (Forall ordered));
    [intros pf row; apply fold_row_ordered | apply Forall_nil_2].
Qed.

Lemma extends_refl pf : extends pf pf.
Proof. intros i d H. exists d. repeat split; [done | lia | lia]. Qed.

Lemma extends_trans pf1 pf2 pf3 : extends pf1 pf2 -> extends pf2 pf3 -> extends pf1 pf3.
Proof.
  intros H12 H23 i d H.
  destruct (H12 i d H) as (d2 & H2 & Hk2 & Ht2 & ? & ?).
  destruct (H23 i d2 H2) as (d3 & H3 & Hk3 & Ht3 & ? & ?).
  exists d3. repeat split; [done | congruence | congruence | lia | lia].
Qed.

Lemma widen_wider d y :
  min_year (widen d y) <= min_year d /\ max_year d <= max_year (widen d y).
Proof.
  unfold widen.
  destruct (Z.gtb_spec (min_year d) y); [simpl; lia|].
  destruct (Z.ltb_spec (max_year d) y); simpl; lia.
Qed.

Lemma fold_row_extends pf row : extends pf (fold_row pf row).
Proof.
  unfold fold_row. destruct (parse_row pf row) as [e|pf'] eqn:H; [apply extends_refl|].
  destruct (parse_row_inr _ _ _ H)
    as (k & y & _ & _ & [(_ & t & _ & ->)|(i & d & _ & Hd & _ & ->)]).
  - intros j d Hj. exists d. rewrite lookup_app_l by by eapply lookup_lt_Some.
    repeat split; [done | lia | lia].
  - intros j d0 Hj. destruct (decide (i = j)) as [<-|Hne].
    + rewrite Hd in Hj. injection Hj as <-. exists (widen d y).
      rewrite list_lookup_insert_eq by by eapply lookup_lt_Some.
      split; [done|]. split; [apply widen_form_number|].
      split; [apply widen_form_title|]. apply widen_wider.
    + exists d0. rewrite list_lookup_insert_ne by done.
      repeat split; [done | lia | lia].
Qed.

Lemma fold_rows_extends rows pf : extends pf (fold_left fold_row rows pf).
Proof.
  revert pf. induction rows as [|row rows IH]; intros pf; [apply extends_refl|].
  simpl. eapply extends_trans; [apply fold_row_extends | apply IH].
Qed.

Lemma covers_extends pf pf' k y : extends pf pf' -> covers pf k y -> covers pf' k y.
Proof.
  intros Hext (d & Hd & Hk & Hy).
  apply list_elem_of_lookup in Hd as [i Hi].
  destruct (Hext i d Hi) as (d' & Hi' & Hk' & _ & ? & ?).
  exists d'. split; [by apply list_elem_of_lookup; exists i|].
  split; [congruence | lia].
Qed.

Lemma fold_row_covers pf row k :
  Forall ordered pf -> valid_row k row = true -> covers (fold_row pf row) k (year_of row).
Proof.
  intros Hord Hv. destruct (valid_row_spec _ _ Hv) as (Hk & Hy & t & Ht).
  unfold fold_row. destruct (is_key_in_dict k pf) as [i|] eqn:Hi.
  - destruct (is_key_in_dict_Some _ _ _ Hi) as (d & Hd & Hkd & _).
    rewrite (parse_row_seen _ _ _ _ _ _ Hk Hy Hi Hd).
    exists (widen d (year_of row)). split.
    + apply list_elem_of_lookup. exists i.
      apply list_lookup_insert_eq. by eapply lookup_lt_Some.
    + split; [by rewrite widen_form_number|].
      destruct (widen_bounds d (year_of row)) as [-> ->]; [|lia].
      by apply (Forall_lookup_1 _ _ _ _ Hord Hd).
  - rewrite (parse_row_unseen _ _ _ _ Hk Hy Hi), Ht. simpl.
    exists (mkForm k t (year_of row) (year_of row)).
    split; [apply elem_of_app; right; by apply list_elem_of_singleton|].
    simpl. split; [done | lia].
Qed.

(** Whatever else the page holds (other keys, rows that raise), the record of
    a key covers the year of every row of that key from which key, year and
    title can be read. *)
Theorem valid_row_year_covered (rows : list Row) (i : nat) (row : Row)
    (k : string) (w : World) :
  rows !! i = Some row ->
  valid_row k row = true ->
  exists forms w' d,
    page_forms_loop rows [] w = (w', inr forms) /\
    d ∈ forms /\ form_number d = k /\
    min_year d <= year_of row <= max_year d.
Proof.
  intros Hi Hv.
  assert (Hcov : covers (fold_left fold_row rows []) k (year_of row)).
  { rewrite <- (take_drop_middle rows i row Hi).
    rewrite fold_left_app. cbn [fold_left].
    eapply covers_extends; [apply fold_rows_extends|].
    apply fold_row_covers; [apply fold_rows_ordered | done]. }
  destruct Hcov as (d & Hd & Hk & Hy).
  eexists _, _, d. split; [apply page_forms_loop_run | done].
Qed.

Lemma valid_row_year_covered_witness :
  exists forms w' d,
    page_forms_loop [row_1040_2019; row_bad_year; row_1040_2017] [] world0
      = (w', inr forms) /\
    d ∈ forms /\ form_number d = "1040" /\ min_year d <= 2017 <= max_year d.
Proof.
  apply (valid_row_year_covered [row_1040_2019; row_bad_year; row_1040_2017]
           2 row_1040_2017 "1040" world0); reflexivity.
Defined.

(** Rows only ever add records or widen them: after more rows, every record
    is still at its index with the same key and title, and its year range
    has not shrunk.  No record is removed or reordered. *)
Theorem records_only_widen (rows more : list Row) (w : World) :
  exists forms forms' w1 w2,
    page_forms_loop rows [] w = (w1, inr forms) /\
    page_forms_loop (rows ++ more) [] w = (w2, inr forms') /\
    (length forms <= length forms')%nat /\
    forall i d, forms !! i = Some d ->
      exists d', forms' !! i = Some d' /\
        form_number d' = form_number d /\ form_title d' = form_title d /\
        min_year d' <= min_year d /\ max_year d <= max_year d'.
Proof.
  eexists _, _, _, _. split; [apply page_forms_loop_run|].
  split; [apply page_forms_loop_run|].
  rewrite fold_left_app.
  pose proof (fold_rows_extends more (fold_left fold_row rows [])) as Hext.
  split; [|exact Hext].
  destruct (fold_left fold_row rows []) as [|d pf] eqn:Hpf using rev_ind; [simpl; lia|].
  clear IHpf.
  destruct (Hext (length pf) d) as (d' & Hd' & _).
  { by rewrite lookup_app_r, Nat.sub_diag by lia. }
  apply lookup_lt_Some in Hd'. rewrite length_app. simpl. lia.
Qed.

Lemma from_rows_snoc rows r d : from_rows rows d -> from_rows (rows ++ [r]) d.
Proof.
  intros ((r1 & ? & ? & ?) & (r2 & ? & ? & ?) & (r3 & ? & ? & ?)).
  split; [|split]; [exists r1 | exists r2 | exists r3];
    (split; [apply elem_of_app; by left | done]).
Qed.

Lemma from_rows_widen rows r d y :
  from_rows rows d ->
  row_form_number r = inr (form_number d) ->
  row_current_year r = inr y ->
  from_rows (rows ++ [r]) (widen d y).
Proof.
  intros Hd Hk Hy. apply (from_rows_snoc _ r) in Hd.
  destruct Hd as (Ht & Hlo & Hhi).
  assert (Hr : r ∈ rows ++ [r])
    by (apply elem_of_app; right; by apply list_elem_of_singleton).
  unfold widen.
  destruct (min_year d >? y); [|destruct (max_year d <? y)].
  - split; [done|]. split; [by exists r | done].
  - split; [done|]. split; [done | by exists r].
  - done.
Qed.

Lemma fold_row_from_rows rows pf r :
  Forall (from_rows rows) pf -> Forall (from_rows (rows ++ [r])) (fold_row pf r).
Proof.
  intros Hpf.
  assert (Hold : Forall (from_rows (rows ++ [r])) pf).
  { eapply Forall_impl; [exact Hpf|]. intros d. apply from_rows_snoc. }
  assert (Hr : r ∈ rows ++ [r])
    by (apply elem_of_app; right; by apply list_elem_of_singleton).
  unfold fold_row. destruct (parse_row pf r) as [e|pf'] eqn:H; [done|].
  destruct (parse_row_inr _ _ _ H)
    as (k & y & Hk & Hy & [(_ & t & Ht & ->)|(i & d & _ & Hd & Hkd & ->)]).
  - apply Forall_app. split; [done|]. apply Forall_singleton.
    split; [|split]; exists r; done.
  - apply Forall_insert; [done|]. apply from_rows_widen; [|by rewrite Hkd|done].
    by apply (Forall_lookup_1 _ _ _ _ Hpf Hd).
Qed.

(** Nothing in a record is made up: its key is the key of a row of the page,
    its title is the title of a row with that key, and its [min_year] and
    its [max_year] are each the year of a row with that key. *)
Theorem records_come_from_rows (rows : list Row) (w : World) :
  exists forms w',
    page_forms_loop rows [] w = (w', inr forms) /\
    forall d, d ∈ forms ->
      (exists r, r ∈ rows /\ row_form_number r = inr (form_number d) /\
                 row_form_title r = inr (form_title d)) /\
      (exists r, r ∈ rows /\ row_form_number r = inr (form_number d) /\
                 row_current_year r = inr (min_year d)) /\
      (exists r, r ∈ rows /\ row_form_number r = inr (form_number d) /\
                 row_current_year r = inr (max_year d)).
Proof.
  eexists _, _. split; [apply page_forms_loop_run|].
  apply Forall_forall. change (Forall (from_rows rows) (fold_left fold_row rows [])).
  induction rows as [|r rows IH] using rev_ind; [apply Forall_nil_2|].
  rewrite fold_rows_snoc. by apply fold_row_from_rows.
Qed.

Lemma widen_same_year d y : ordered d -> widen (widen d y) y = widen d y.
Proof.
  intros Hd. rewrite (widen_eq (widen d y)) by by apply widen_ordered.
  rewrite widen_form_number, widen_form_title.
  destruct (widen_bounds d y Hd) as [-> ->].
  rewrite (widen_eq d y Hd). f_equal; lia.
Qed.

Lemma widen_point k t y : widen (mkForm k t y y) y = mkForm k t y y.
Proof. unfold widen. simpl. by rewrite Z.gtb_ltb, Z.ltb_irrefl. Qed.

Lemma fold_row_twice pf row :
  Forall ordered pf -> fold_row (fold_row pf row) row = fold_row pf row.
Proof.
  intros Hord. unfold fold_row at 2 3.
  destruct (parse_row pf row) as [e|pf'] eqn:H.
  { unfold fold_row. by rewrite H. }
  destruct (parse_row_inr _ _ _ H)
    as (k & y & Hk & Hy & [(Hi & t & Ht & ->)|(i & d & Hi & Hd & Hkd & ->)]);
    unfold fold_row.
  - apply is_key_in_dict_None in Hi.
    rewrite (parse_row_seen _ row k y (length pf) (mkForm k t y y) Hk Hy).
    + rewrite widen_point. apply list_insert_id.
      by rewrite lookup_app_r, Nat.sub_diag by lia.
    + unfold is_key_in_dict. by rewrite is_key_in_dict_from_snoc.
    + by rewrite lookup_app_r, Nat.sub_diag by lia.
  - assert (Hlt : (i < length pf)%nat) by by eapply lookup_lt_Some.
    rewrite (parse_row_seen _ row k y i (widen d y) Hk Hy).
    + rewrite widen_same_year by by apply (Forall_lookup_1 _ _ _ _ Hord Hd).
      apply list_insert_id. by apply list_lookup_insert_eq.
    + unfold is_key_in_dict.
      rewrite (is_key_in_dict_from_keys 0 k _ pf); [done|].
      by apply keys_insert_widen.
    + by apply list_lookup_insert_eq.
Qed.

(** A row that comes twice in a row counts once: the records after the
    second copy are the records after the first. *)
Theorem repeated_row_changes_nothing (rows : list Row) (row : Row) (w : World) :
  exists forms w1 w2,
    page_forms_loop (rows ++ [row]) [] w = (w1, inr forms) /\
    page_forms_loop (rows ++ [row; row]) [] w = (w2, inr forms).
Proof.
  eexists _, _, _. split; [apply page_forms_loop_run|].
  rewrite page_forms_loop_run. do 2 f_equal.
  rewrite !fold_left_app. cbn [fold_left].
  apply fold_row_twice, fold_rows_ordered.
Qed.

Lemma fold_rows_length rows pf :
  (length (fold_left fold_row rows pf) + length (parse_errors rows pf)
   <= length pf + length rows)%nat.
Proof.
  revert pf. induction rows as [|row rows IH]; intros pf; [simpl; lia|].
  cbn [fold_left parse_errors length].
  assert (Hf : fold_row pf row
               = match parse_row pf row with inr pf' => pf' | inl _ => pf end) by done.
  rewrite Hf. clear Hf.
  destruct (parse_row pf row) as [e|pf'] eqn:H.
  - specialize (IH pf). cbn [length]. lia.
  - specialize (IH pf').
    assert (length pf' <= S (length pf))%nat; [|lia].
    destruct (parse_row_inr _ _ _ H)
      as (k & y & _ & _ & [(_ & t & _ & ->)|(i & d & _ & _ & _ & ->)]).
    + rewrite length_app. simpl. lia.
    + rewrite length_insert. lia.
Qed.

Lemma parse_errors_text rows pf :
  Forall (fun e => log_text e = "Error: " /\ log_cause e <> None) (parse_errors rows pf).
Proof.
  revert pf. induction rows as [|row rows IH]; intros pf; simpl; [apply Forall_nil_2|].
  destruct (parse_row pf row) as [e|pf']; [|apply IH].
  apply Forall_cons. split; [done | apply IH].
Qed.

(** [parse_page_forms_json] never raises, whatever the rows are.  It leaves
    the disk and the request log alone and only appends to the error log:
    one line, with its exception, per row that raised.  Row by row: when the
    body of the [try] gives new records for a row, the loop goes on with
    them and the log as it is; when it raises [e], the loop goes on with the
    records as they were and the line [Error: e] added to the log.  The
    texts returned are the serializations of the records after the last
    row, and together with the lines logged they are at most as many as the
    rows. *)
Theorem parse_page_forms_json_effects (rows : list Row) (w : World) :
  exists out w' logged forms,
    parse_page_forms_json rows w = (w', inr out) /\
    page_forms_loop rows [] w = (w', inr forms) /\
    out = json_dumps <$> forms /\
    files w' = files w /\ dirs w' = dirs w /\ requests w' = requests w /\
    errors w' = errors w ++ logged /\
    (length out + length logged <= length rows)%nat /\
    (forall e, e ∈ logged -> log_text e = "Error: " /\ log_cause e <> None) /\
    (forall i row, rows !! i = Some row ->
       exists wi forms_i,
         page_forms_loop (take i rows) [] w = (wi, inr forms_i) /\
         page_forms_loop (take (S i) rows) [] w
         = match parse_row forms_i row with
           | inr forms' => (wi, inr forms')
           | inl e =>
               (mkWorld (files wi) (dirs wi) (requests wi)
                  (errors wi ++ [mkLog "Error: " (Some e)]),
                inr forms_i)
           end).
Proof.
  eexists _, _, (parse_errors rows []), _.
  split; [apply parse_page_forms_json_run|].
  split; [apply page_forms_loop_run|].
  do 5 (split; [done|]). split; [|split].
  - rewrite length_fmap. apply (fold_rows_length rows []).
  - apply Forall_forall, parse_errors_text.
  - intros i row Hi. eexists _, _. split; [apply page_forms_loop_run|].
    rewrite (take_S_r rows i row Hi), page_forms_loop_run.
    rewrite parse_errors_app, fold_left_app. cbn [parse_errors fold_left].
    set (forms_i := fold_left fold_row (take i rows) []). unfold fold_row.
    destruct (parse_row forms_i row) as [e|forms'].
    + by rewrite <- add_errors_app.
    + by rewrite app_nil_r.
Qed.

Lemma readable_spec row :
  readable row = true ->
  row_form_number row = inr (key_of row) /\ valid_row (key_of row) row = true.
Proof.
  unfold readable, valid_row, key_of.
  destruct (row_form_number row) as [|k]; [done|].
  destruct (row_current_year row) as [|y]; [done|].
  destruct (row_form_title row) as [|t]; [done|].
  by rewrite String.eqb_refl.
Qed.

Lemma fold_row_keys pf row :
  readable row = true ->
  keys (fold_row pf row)
  = if decide (key_of row ∈ keys pf) then keys pf else keys pf ++ [key_of row].
Proof.
  intros Hr. destruct (readable_spec _ Hr) as [Hk Hv].
  destruct (valid_row_spec _ _ Hv) as (_ & Hy & t & Ht).
  unfold fold_row. destruct (is_key_in_dict (key_of row) pf) as [i|] eqn:Hi.
  - destruct (is_key_in_dict_Some _ _ _ Hi) as (d & Hd & Hkd & _).
    rewrite (parse_row_seen _ _ _ _ _ _ Hk Hy Hi Hd), keys_insert_widen by done.
    rewrite decide_True; [done|]. rewrite <- Hkd. unfold keys.
    apply list_elem_of_fmap. exists d. split; [done|].
    by apply list_elem_of_lookup; exists i.
  - rewrite (parse_row_unseen _ _ _ _ Hk Hy Hi), Ht. simpl.
    apply is_key_in_dict_None in Hi. rewrite decide_False by done.
    unfold keys. by rewrite fmap_app.
Qed.

(** On a page whose rows can all be read, the records come in the order in
    which their keys first occur among the rows: the keys of the records are
    the keys of the rows with every later repetition dropped. *)
Theorem records_in_first_occurrence_order (rows : list Row) (w : World) :
  forallb readable rows = true ->
  exists forms w',
    page_forms_loop rows [] w = (w', inr forms) /\
    keys forms = reverse (remove_dups (reverse (key_of <$> rows))).
Proof.
  intros Hall. eexists _, _. split; [apply page_forms_loop_run|].
  induction rows as [|r rows IH] using rev_ind; [done|].
  rewrite forallb_app in Hall. apply andb_true_iff in Hall as [Hrows Hr].
  simpl in Hr. rewrite andb_true_r in Hr. specialize (IH Hrows).
  rewrite fold_rows_snoc, fold_row_keys by done.
  rewrite fmap_app, reverse_app. cbn [fmap list_fmap reverse app].
  change (reverse [key_of r]) with [key_of r]. cbn [app remove_dups].
  rewrite IH.
  destruct (decide_rel elem_of (key_of r) (reverse (key_of <$> rows))) as [Hin|Hnin].
  - rewrite decide_True; [done|].
    by rewrite elem_of_reverse, elem_of_remove_dups.
  - rewrite decide_False; [by rewrite reverse_cons|].
    by rewrite elem_of_reverse, elem_of_remove_dups.
Qed.

Lemma records_in_first_occurrence_order_witness :
  exists forms w',
    page_forms_loop [row_1040_2019; row_1040_2020; row_1040_2017] [] world0
      = (w', inr forms) /\
    keys forms = ["1040"].
Proof.
  destruct (records_in_first_occurrence_order
              [row_1040_2019; row_1040_2020; row_1040_2017] world0)
    as (forms & w' & H1 & H2); [reflexivity|].
  exists forms, w'. split; [exact H1|]. rewrite H2. reflexivity.
Defined.

(** ** Further properties of the fetcher *)

(** [load_page] sends exactly one request, for its URL, and touches neither
    the disk nor the error log, whatever the answer is.  A transport failure
    of [session.get] leaves it as it was raised, and the [None] of the
    [else] branch is never returned. *)
Theorem load_page_effects (net : string -> Res Response) (url : string) (w : World) :
  files (load_page net url w).1 = files w /\
  dirs (load_page net url w).1 = dirs w /\
  errors (load_page net url w).1 = errors w /\
  requests (load_page net url w).1 = requests w ++ [url] /\
  (load_page net url w).2 <> inr None /\
  (forall e, net url = inl e -> (load_page net url w).2 = inl e) /\
  (forall b, (load_page net url w).2 = inr (Some b) <-> fetched net url = Some b).
Proof.
  rewrite load_page_run. unfold fetched. cbn [fst snd sent files dirs errors requests].
  do 4 (split; [done|]).
  destruct (net url) as [e|resp].
  - split; [done|]. split; [by intros ? [= ->]|]. intros b. by split.
  - destruct ((200 <=? status resp) && (status resp <=? 299)).
    + split; [done|]. split; [done|]. intros b. split; by intros [= ->].
    + split; [done|]. split; [done|]. intros b. by split.
Qed.

(** ** Further properties of the downloader *)

Section DownloadBatch.

Variable net : string -> Res Response.

Lemma save_outcome_requests row url :
  url ∈ outcome_requests (save_outcome net row) ->
  exists y, row_href row = inr url /\ row_current_year row = inr y /\
            in_window y = true.
Proof.
  unfold save_outcome.
  destruct (row_current_year row) as [e|y]; [by intros ?%elem_of_nil|].
  destruct (row_form_number row) as [e|k]; [by intros ?%elem_of_nil|].
  destruct (in_window y) eqn:Hw; [|by intros ?%elem_of_nil].
  destruct (row_href row) as [e|href]; [by intros ?%elem_of_nil|].
  destruct (net href) as [e|resp];
    [|destruct ((200 <=? status resp) && (status resp <=? 299))];
    simpl; intros ->%list_elem_of_singleton; by exists y.
Qed.

Lemma save_outcome_requests_length row :
  (length (outcome_requests (save_outcome net row)) <= 1)%nat.
Proof.
  destruct (save_outcome net row) as [|[req|] e|]; simpl; lia.
Qed.

Lemma flat_map_length_le {A B} (f : A -> list B) (l : list A) :
  (forall x, length (f x) <= 1)%nat -> (length (flat_map f l) <= length l)%nat.
Proof.
  intros Hf. induction l as [|x l IH]; simpl; [lia|].
  rewrite length_app. specialize (Hf x). lia.
Qed.


Lemma fold_outcomes_errors os : forall w,
  exists logged,
    errors (fold_left apply_outcome os w) = errors w ++ logged /\
    (length logged <= length os)%nat /\
    forall e, e ∈ logged ->
      log_text e = "Can not save file, error: " /\ log_cause e <> None.
Proof.
  induction os as [|o os IH]; intros w.
  - exists []. simpl. rewrite app_nil_r. split; [done|]. split; [lia|].
    by intros e ?%elem_of_nil.
  - destruct (apply_outcome_errors w o) as (l1 & H1 & Hlen1 & Hall1).
    destruct (IH (apply_outcome w o)) as (l2 & H2 & Hlen2 & Hall2).
    exists (l1 ++ l2). cbn [fold_left]. rewrite H2, H1, <- app_assoc.
    split; [done|]. split; [rewrite length_app; simpl; lia|].
    intros e [?|?]%elem_of_app; auto.
Qed.

Lemma save_page_form_pdf_app rows1 rows2 w :
  save_page_form_pdf net (rows1 ++ rows2) w
  = save_page_form_pdf net rows2 (save_page_form_pdf net rows1 w).1.
Proof. by rewrite !save_page_form_pdf_run, fmap_app, fold_left_app. Qed.

(** One row: the world is the one the body of the [try] leaves, with one
    more line in the log when the body raised. *)
Lemma save_page_form_pdf_one row w :
  (save_page_form_pdf net [row] w).1
  = match save_row net row w with
    | (w1, inr _) => w1
    | (w1, inl e) =>
        mkWorld (files w1) (dirs w1) (requests w1)
          (errors w1 ++ [mkLog "Can not save file, error: " (Some e)])
    end.
Proof.
  cbn [save_page_form_pdf]. unfold mbind, M_bind at 1.
  unfold try_except, logger_error.
  by destruct (save_row net row w) as [w1 [e|[]]].
Qed.

End DownloadBatch.

(** [save_page_form_pdf] never raises, whatever the rows, the network and
    the disk do: every exception of a row is caught and logged.  Row by row,
    the world after a row is the world the body of the [try] leaves when it
    is run on that row, with the line [Can not save file, error: e] added to
    the log exactly when the body raised, [e] being what it raised.
    Altogether the batch sends at most one request per row, and only for
    rows whose year lies in [MIN_YEAR..MAX_YEAR], to the target of the link
    of the row; it logs at most one line per row, and nothing but such
    lines. *)
Theorem save_page_form_pdf_never_raises (net : string -> Res Response)
    (rows : list Row) (w : World) :
  exists w' reqs logged,
    save_page_form_pdf net rows w = (w', inr tt) /\
    requests w' = requests w ++ reqs /\
    errors w' = errors w ++ logged /\
    (length reqs <= length rows)%nat /\
    (length logged <= length rows)%nat /\
    (forall url, url ∈ reqs ->
       exists row y, row ∈ rows /\ row_href row = inr url /\
         row_current_year row = inr y /\ MIN_YEAR <= y <= MAX_YEAR) /\
    (forall e, e ∈ logged ->
       log_text e = "Can not save file, error: " /\ log_cause e <> None) /\
    (forall i row, rows !! i = Some row ->
       (save_page_form_pdf net (take (S i) rows) w).1
       = match save_row net row (save_page_form_pdf net (take i rows) w).1 with
         | (w1, inr _) => w1
         | (w1, inl e) =>
             mkWorld (files w1) (dirs w1) (requests w1)
               (errors w1 ++ [mkLog "Can not save file, error: " (Some e)])
         end).
Proof.
  destruct (fold_outcomes_errors (save_outcome net <$> rows) w)
    as (logged & Hlog & Hlen & Hall).
  eexists _, (flat_map outcome_requests (save_outcome net <$> rows)), logged.
  split; [apply save_page_form_pdf_run|].
  split; [apply fold_outcomes_requests|].
  split; [exact Hlog|]. rewrite !flat_map_fmap.
  split; [apply flat_map_length_le, save_outcome_requests_length|].
  split; [by rewrite length_fmap in Hlen|].
  split; [|split; [exact Hall|]].
  - intros url Hurl. apply list_elem_of_In, in_flat_map in Hurl as (row & Hrow & Hin).
    apply list_elem_of_In in Hrow, Hin.
    destruct (save_outcome_requests net row url Hin) as (y & Hh & Hy & Hw).
    exists row, y. repeat split; try done;
      unfold in_window in Hw; apply andb_true_iff in Hw as [?%Z.leb_le ?%Z.leb_le]; lia.
  - intros i row Hi.
    rewrite (take_S_r rows i row Hi), save_page_form_pdf_app.
    apply save_page_form_pdf_one.
Qed.


(** ** Further properties of the pagination loop *)

Section PaginationAnyNetwork.

Variable net : string -> Res Response.

Lemma main_loop_bad_page fuel i tasks w :
  nonempty_page net i = false ->
  exists r,
    main_loop net (S fuel) (200 * Z.of_nat i) tasks w
    = (sent w (listing_url (200 * Z.of_nat i)), r) /\
    r <> inr None /\
    (empty_page net i = true -> r = inr (Some tasks)) /\
    (empty_page net i = false -> exists e, r = inl e).
Proof.
  intros Hne.
  destruct (empty_page net i) eqn:Hempty.
  { exists (inr (Some tasks)). split; [by apply main_loop_stop|]. by repeat split. }
  unfold nonempty_page, empty_page, listing_rows in *.
  destruct (fetched net (listing_url (200 * Z.of_nat i))) as [b|] eqn:Hf.
  - destruct (body_table b) as [trs|] eqn:Ht.
    + simpl in *. by destruct (drop 1 trs).
    + exists (inl AttributeError). split; [by apply main_loop_no_table with b|].
      repeat split; [done | done |]. intros _. by eexists.
  - destruct (load_page_not_fetched net _ w Hf) as [e He].
    exists (inl e). split; [apply main_loop_page_raises; by rewrite He|].
    repeat split; [done | done |]. intros _. by eexists.
Qed.

Lemma main_loop_general fuel : forall i tasks w,
  exists n w' r,
    (n <= fuel)%nat /\
    main_loop net fuel (200 * Z.of_nat i) tasks w = (w', r) /\
    forallb (nonempty_page net) (seq i n) = true /\
    ((n = fuel /\ r = inr None /\
      w' = fold_left (process_page net) (seq i n) w) \/
     ((n < fuel)%nat /\ nonempty_page net (i + n) = false /\ r <> inr None /\
      w' = sent (fold_left (process_page net) (seq i n) w)
             (listing_url (200 * Z.of_nat (i + n))) /\
      (empty_page net (i + n) = true ->
       r = inr (Some (tasks ++ flat_map (page_tasks net) (seq i n)))) /\
      (empty_page net (i + n) = false -> exists e, r = inl e))).
Proof.
  induction fuel as [|fuel IH]; intros i tasks w.
  { exists 0%nat, w, (inr None). split; [done|]. split; [done|]. split; [done|].
    by left. }
  destruct (nonempty_page net i) eqn:Hpage.
  - destruct (IH (S i) (tasks ++ page_tasks net i) (process_page net w i))
      as (n & w' & r & Hle & Hrun & Hpages & Hcases).
    exists (S n), w', r. split; [lia|].
    split; [by rewrite main_loop_step|].
    split; [by cbn [seq forallb]; rewrite Hpage|].
    cbn [seq fold_left flat_map]. rewrite <- Nat.add_succ_comm, app_assoc.
    destruct Hcases as [(-> & -> & ->)|(Hlt & ? & ? & ? & ? & ?)].
    + by left.
    + right. split; [lia|]. done.
  - destruct (main_loop_bad_page fuel i tasks w Hpage) as (r & Hrun & Hr & He & Hn).
    exists 0%nat, (sent w (listing_url (200 * Z.of_nat i))), r.
    split; [lia|]. split; [done|]. split; [done|].
    right. rewrite Nat.add_0_r. cbn [seq fold_left flat_map]. rewrite app_nil_r.
    split; [lia|]. done.
Qed.

Lemma main_loop_prefix n : forall i fuel tasks w,
  forallb (nonempty_page net) (seq i n) = true ->
  main_loop net (n + fuel) (200 * Z.of_nat i) tasks w =
  main_loop net fuel (200 * Z.of_nat (i + n))
    (tasks ++ flat_map (page_tasks net) (seq i n))
    (fold_left (process_page net) (seq i n) w).
Proof.
  induction n as [|n IH]; intros i fuel tasks w Hpages.
  - simpl. by rewrite Nat.add_0_r, app_nil_r.
  - simpl in Hpages. apply andb_true_iff in Hpages as [Hpage Hpages].
    cbn [Nat.add]. rewrite main_loop_step by done. rewrite IH by done.
    cbn [seq fold_left flat_map]. by rewrite <- Nat.add_succ_comm, app_assoc.
Qed.

End PaginationAnyNetwork.

(** Whatever the network does, [main] asks for the listing pages at the
    cursors 0, 200, 400, ... in this order, each followed by the artifact
    requests of its rows, and stops at the first page that is not a non-empty
    page: with the [break] and the collected tasks when that page is empty,
    with an exception when it could not be fetched or has no table.  It
    reaches no later page, and it runs out of fuel only when every page so
    far was non-empty. *)
Theorem main_loop_stops_at_first_bad_page (net : string -> Res Response)
    (fuel : nat) (w : World) :
  exists n w' r,
    (n <= fuel)%nat /\
    main_loop net fuel 0 [] w = (w', r) /\
    forallb (nonempty_page net) (seq 0 n) = true /\
    ((n = fuel /\ r = inr None /\
      requests w' = requests w ++ flat_map (page_requests net) (seq 0 n)) \/
     ((n < fuel)%nat /\ nonempty_page net n = false /\ r <> inr None /\
      requests w' = requests w ++ flat_map (page_requests net) (seq 0 n)
                               ++ [listing_url (200 * Z.of_nat n)] /\
      (empty_page net n = true ->
       r = inr (Some (flat_map (page_tasks net) (seq 0 n)))) /\
      (empty_page net n = false -> exists e, r = inl e))).
Proof.
  destruct (main_loop_general net fuel 0 [] w)
    as (n & w' & r & Hle & Hrun & Hpages & Hcases).
  exists n, w', r. split; [done|]. split; [exact Hrun|]. split; [done|].
  destruct Hcases as [(-> & -> & ->)|(Hlt & Hbad & Hr & -> & Hempty & Hfail)].
  - left. by rewrite crawl_requests.
  - right. simpl "+"%nat in *. do 3 (split; [done|]).
    split; [|by split].
    cbn [requests sent]. by rewrite crawl_requests, <- app_assoc.
Qed.

(** A listing page that cannot be fetched (transport failure, or a status
    outside 200..299) is not taken for the end of the listing: after [N]
    non-empty pages, [main] ends with the exception of the fetch; a transport
    exception is the one [session.get] raised.  What the earlier pages left
    on disk stays. *)
Theorem main_aborts_on_failed_listing (net : string -> Res Response)
    (N fuel : nat) (w : World) :
  forallb (nonempty_page net) (seq 0 N) = true ->
  fetched net (listing_url (200 * Z.of_nat N)) = None ->
  (N < fuel)%nat ->
  exists e w',
    main net fuel w = (w', inl e) /\
    (forall e0, net (listing_url (200 * Z.of_nat N)) = inl e0 -> e = e0) /\
    files w' = files (fold_left (process_page net) (seq 0 N) w) /\
    requests w' = requests w ++ flat_map (page_requests net) (seq 0 N)
                             ++ [listing_url (200 * Z.of_nat N)].
Proof.
  intros Hpages Hf Hfuel.
  replace fuel with (N + S (fuel - S N))%nat by lia.
  set (wN := fold_left (process_page net) (seq 0 N) w).
  pose proof (load_page_run net (listing_url (200 * Z.of_nat N)) wN) as Hload.
  assert (He : exists e, (load_page net (listing_url (200 * Z.of_nat N)) wN).2 = inl e /\
                 forall e0, net (listing_url (200 * Z.of_nat N)) = inl e0 -> e = e0).
  { rewrite Hload. unfold fetched in Hf. cbn [snd].
    destruct (net (listing_url (200 * Z.of_nat N))) as [e|resp].
    - exists e. split; [done|]. by intros ? [= ->].
    - destruct ((200 <=? status resp) && (status resp <=? 299)); [done|].
      by exists AttributeError. }
  destruct He as (e & He & Htransport).
  exists e, (sent wN (listing_url (200 * Z.of_nat N))).
  split; [|split; [done|split; [done|]]].
  - unfold main, mbind, M_bind at 1.
    change 0 with (200 * Z.of_nat 0).
    rewrite (main_loop_prefix net N 0 _ [] w Hpages). simpl "+"%nat.
    by rewrite (main_loop_page_raises net _ _ _ wN e He).
  - cbn [requests sent]. unfold wN. by rewrite crawl_requests, <- app_assoc.
Qed.

Lemma main_aborts_on_failed_listing_witness :
  exists w',
    main net_then_404 5 world0 = (w', inl AttributeError) /\
    requests w' = [listing_url 0; "https://irs.example/f1040--2019.pdf"; listing_url 200].
Proof.
  destruct (main_aborts_on_failed_listing net_then_404 1 5 world0)
    as (e & w' & Hmain & _ & _ & Hreq); [reflexivity | reflexivity | lia |].
  exists w'. split; [|rewrite Hreq; reflexivity].
  assert (He : (main net_then_404 5 world0).2 = inl AttributeError) by reflexivity.
  rewrite Hmain in He. cbn [snd] in He. injection He as ->. exact Hmain.
Defined.

(** [main] returns normally only when the very first listing page is an
    empty page: then it has sent that one request and nothing else.  Once a
    page has been processed, the values collected in [tasks] make
    [asyncio.gather] raise. *)
Theorem main_returns_iff_first_page_empty (net : string -> Res Response)
    (fuel : nat) (w w' : World) :
  main net fuel w = (w', inr (Some tt)) <->
  (0 < fuel)%nat /\ empty_page net 0 = true /\ w' = sent w (listing_url 0).
Proof.
  split.
  - unfold main, mbind, M_bind at 1.
    destruct (main_loop_general net fuel 0 [] w)
      as (n & w1 & r & Hle & Hrun & Hpages & Hcases).
    change (200 * Z.of_nat 0) with 0 in Hrun. rewrite Hrun.
    destruct Hcases as [(-> & -> & ->)|(Hlt & Hbad & Hr & -> & Hempty & Hfail)]; [done|].
    simpl "+"%nat in *. destruct (empty_page net n) eqn:He.
    + rewrite (Hempty eq_refl). destruct n as [|n].
      * cbn. intros [= <-]. split; [lia|]. done.
      * cbn [seq flat_map page_tasks app gather]. by unfold mbind, M_bind, raise.
    + destruct (Hfail eq_refl) as [e ->]. done.
  - intros (Hfuel & Hempty & ->). destruct fuel as [|fuel]; [lia|].
    unfold main, mbind, M_bind at 1.
    pose proof (main_loop_stop net fuel 0 [] w Hempty) as Hstop.
    change (200 * Z.of_nat 0) with 0 in Hstop. by rewrite Hstop.
Qed.

(** ** Further properties of keys and paths *)

Lemma string_app_cons c s t : String c s +:+ t = String c (s +:+ t).
Proof. done. Qed.

Lemma string_app_nil_l t : "" +:+ t = t.
Proof. done. Qed.

Lemma string_app_nil_r s : s +:+ "" = s.
Proof. induction s as [|c s IH]; [done|]. by rewrite string_app_cons, IH. Qed.

Lemma string_app_assoc s t u : (s +:+ t) +:+ u = s +:+ (t +:+ u).
Proof. induction s as [|c s IH]; [done|]. by rewrite !string_app_cons, IH. Qed.

Lemma string_app_length s t :
  String.length (s +:+ t) = (String.length s + String.length t)%nat.
Proof.
  induction s as [|c s IH]; [done|]. rewrite string_app_cons. simpl. by rewrite IH.
Qed.

Lemma string_app_inv_tail s1 s2 t : s1 +:+ t = s2 +:+ t -> s1 = s2.
Proof.
  revert s2. induction s1 as [|c s1 IH]; intros [|c2 s2] H; [done| | |].
  - apply (f_equal String.length) in H.
    rewrite string_app_nil_l, string_app_cons in H. simpl in H.
    rewrite string_app_length in H. lia.
  - apply (f_equal String.length) in H.
    rewrite string_app_nil_l, string_app_cons in H. simpl in H.
    rewrite string_app_length in H. lia.
  - rewrite !string_app_cons in H. injection H as -> H. f_equal. by apply IH.
Qed.

Lemma prefix_app sep s : String.prefix sep s = true <-> exists r, s = sep +:+ r.
Proof.
  revert s. induction sep as [|c sep IH]; intros s.
  - split; [by exists s | by destruct s].
  - destruct s as [|c' s]; simpl; [split; [done | by intros [r ?]]|].
    destruct (ascii_dec c c') as [<-|Hne].
    + rewrite IH. split; intros [r Hr]; exists r.
      * by rewrite string_app_cons, Hr.
      * rewrite string_app_cons in Hr. by injection Hr.
    + split; [done|]. intros [r Hr]. rewrite string_app_cons in Hr. by injection Hr.
Qed.

Lemma split_head_nil sep : PyStr.split_head sep "" = "".
Proof. by destruct sep. Qed.

Lemma split_head_cons sep c s :
  PyStr.split_head sep (String c s)
  = if String.prefix sep (String c s) then "" else String c (PyStr.split_head sep s).
Proof. done. Qed.

Lemma split_head_spec sep s :
  exists rest, s = PyStr.split_head sep s +:+ rest /\
               (rest = "" \/ String.prefix sep rest = true).
Proof.
  induction s as [|c s (rest & Hs & Hrest)].
  - exists "". rewrite split_head_nil. by split; [|left].
  - rewrite split_head_cons. destruct (String.prefix sep (String c s)) eqn:Hp.
    + exists (String c s). by split; [|right].
    + exists rest. split; [by rewrite string_app_cons, <- Hs | done].
Qed.

Lemma app_sep_not_nil sep u v : sep <> "" -> "" <> u +:+ sep +:+ v.
Proof.
  intros Hsep. destruct u; [|done]. rewrite string_app_nil_l.
  destruct sep; [done|]. by rewrite string_app_cons.
Qed.

Lemma split_head_no_sep sep s u v :
  sep <> "" -> PyStr.split_head sep s <> u +:+ sep +:+ v.
Proof.
  intros Hsep. revert u. induction s as [|c s IH]; intros u.
  - rewrite split_head_nil. by apply app_sep_not_nil.
  - rewrite split_head_cons. destruct (String.prefix sep (String c s)) eqn:Hp.
    { by apply app_sep_not_nil. }
    destruct u as [|c' u].
    + rewrite string_app_nil_l. intros Heq.
      destruct (split_head_spec sep s) as (rest & Hs & _).
      assert (String.prefix sep (String c s) = true); [|congruence].
      apply prefix_app. exists (v +:+ rest).
      rewrite Hs, <- string_app_cons, Heq. by rewrite string_app_assoc.
    + rewrite string_app_cons. intros [= _ Heq]. by apply (IH u).
Qed.

(** The key of a row is the text of its link up to, and without, the first
    [" ("]: the text is the key followed by nothing or by a remainder that
    starts with [" ("], and the key itself holds no [" ("]. *)
Theorem form_number_before_paren (row : Row) (k : string) :
  row_form_number row = inr k ->
  exists a s rest,
    row_link row = Some a /\ a_string a = Some s /\
    s = k +:+ rest /\
    (rest = "" \/ String.prefix " (" rest = true) /\
    forall u v, k <> u +:+ " (" +:+ v.
Proof.
  unfold row_form_number.
  destruct (row_link row) as [a|]; [|done]. cbn [attr_of res_bind].
  destruct (a_string a) as [s|] eqn:Hstr; [|done]. cbn [attr_of res_bind].
  intros [= <-].
  destruct (split_head_spec " (" s) as (rest & Hs & Hrest).
  exists a, s, rest. do 4 (split; [done|]).
  intros u v. by apply split_head_no_sep.
Qed.

Lemma form_number_before_paren_witness :
  exists a s rest,
    row_link row_1040_2020 = Some a /\ a_string a = Some s /\
    s = "1040" +:+ rest /\
    (rest = "" \/ String.prefix " (" rest = true) /\
    forall u v, "1040" <> u +:+ " (" +:+ v.
Proof. apply (form_number_before_paren row_1040_2020 "1040"). reflexivity. Defined.

Lemma slash_split k1 k2 r1 r2 :
  no_slash k1 = true -> no_slash k2 = true ->
  k1 +:+ String "/" r1 = k2 +:+ String "/" r2 -> k1 = k2 /\ r1 = r2.
Proof.
  revert k2. induction k1 as [|c k1 IH]; intros [|c2 k2] H1 H2 H;
    rewrite ?string_app_nil_l, ?string_app_cons in H; simpl in H1, H2.
  - by injection H.
  - injection H as <- _. by rewrite Ascii.eqb_refl in H2.
  - injection H as -> _. by rewrite Ascii.eqb_refl in H1.
  - injection H as -> H.
    apply andb_true_iff in H1 as [_ H1]. apply andb_true_iff in H2 as [_ H2].
    destruct (IH k2 H1 H2 H) as [-> ->]. done.
Qed.

(** Rows with different keys or different years never share a file: for keys
    without [/], the destination [{key}/{key}_{year}.pdf] determines both
    the key and the year. *)
Theorem artifact_path_inj (k1 k2 : string) (y1 y2 : Z) :
  no_slash k1 = true -> no_slash k2 = true ->
  artifact_path k1 y1 = artifact_path k2 y2 ->
  k1 = k2 /\ y1 = y2.
Proof.
  intros H1 H2 H. unfold artifact_path in H.
  rewrite !(string_app_cons "/" ""), !string_app_nil_l in H.
  apply slash_split in H as [-> H]; [|done|done].
  split; [done|].
  apply String.app_inj in H.
  rewrite !(string_app_cons "_" ""), !string_app_nil_l in H.
  injection H as H. apply string_app_inv_tail in H.
  by apply pretty_Z_inj.
Qed.

Lemma artifact_path_inj_witness :
  "1040" = "1040" /\ 2019 = 2019.
Proof.
  apply (artifact_path_inj "1040" "1040" 2019 2019); reflexivity.
Defined.

(** ** Further properties of the texts read from a row *)

Lemma string_forall_app P s t :
  string_forall P (s +:+ t) = string_forall P s && string_forall P t.
Proof.
  induction s as [|c s IH]; [done|].
  rewrite string_app_cons. simpl. by rewrite IH, andb_assoc.
Qed.

Lemma rev_app_spec s a : String.rev_app s a = String.rev s +:+ a.
Proof.
  unfold String.rev. revert a. induction s as [|c s IH]; intros a; [done|].
  simpl. rewrite (IH (String c a)), (IH (String c "")).
  by rewrite string_app_assoc.
Qed.

Lemma string_rev_cons c s : String.rev (String c s) = String.rev s +:+ String c "".
Proof. unfold String.rev at 1. simpl. apply rev_app_spec. Qed.

Lemma string_rev_app s t : String.rev (s +:+ t) = String.rev t +:+ String.rev s.
Proof.
  induction s as [|c s IH]; [by rewrite string_app_nil_l, string_app_nil_r|].
  by rewrite string_app_cons, !string_rev_cons, IH, string_app_assoc.
Qed.

Lemma string_rev_involutive s : String.rev (String.rev s) = s.
Proof.
  induction s as [|c s IH]; [done|].
  by rewrite string_rev_cons, string_rev_app, IH.
Qed.

Lemma string_forall_rev P s : string_forall P (String.rev s) = string_forall P s.
Proof.
  induction s as [|c s IH]; [done|].
  rewrite string_rev_cons, string_forall_app, IH. simpl.
  by rewrite andb_true_r, andb_comm.
Qed.

Lemma lstrip_spec s :
  exists pre, s = pre +:+ PyStr.lstrip s /\
    string_forall PyStr.isspace pre = true /\
    (PyStr.lstrip s = "" \/
     exists c t, PyStr.lstrip s = String c t /\ PyStr.isspace c = false).
Proof.
  induction s as [|c s (pre & Hs & Hpre & Hhead)].
  - exists "". split; [done|]. split; [done|]. by left.
  - simpl. destruct (PyStr.isspace c) eqn:Hc.
    + exists (String c pre). split; [by rewrite string_app_cons, <- Hs|].
      split; [by simpl; rewrite Hc|]. done.
    + exists "". split; [done|]. split; [done|]. right. by exists c, s.
Qed.

Lemma rstrip_spec s :
  exists post, s = PyStr.rstrip s +:+ post /\
    string_forall PyStr.isspace post = true /\
    (PyStr.rstrip s = "" \/
     exists t c, PyStr.rstrip s = t +:+ String c "" /\ PyStr.isspace c = false).
Proof.
  unfold PyStr.rstrip.
  destruct (lstrip_spec (String.rev s)) as (pre & Hs & Hpre & Hhead).
  exists (String.rev pre). split; [|split].
  - rewrite <- string_rev_app, <- Hs. by rewrite string_rev_involutive.
  - by rewrite string_forall_rev.
  - destruct Hhead as [->|(c & t & -> & Hc)]; [by left|].
    right. exists (String.rev t), c. by rewrite string_rev_cons.
Qed.

Lemma strip_spec s :
  exists pre post, s = pre +:+ PyStr.strip s +:+ post /\
    string_forall PyStr.isspace pre = true /\
    string_forall PyStr.isspace post = true /\
    trimmed (PyStr.strip s).
Proof.
  unfold PyStr.strip.
  destruct (lstrip_spec s) as (pre & Hs & Hpre & Hhead).
  destruct (rstrip_spec (PyStr.lstrip s)) as (post & Hl & Hpost & Hlast).
  exists pre, post. split; [by rewrite <- Hl|]. split; [done|]. split; [done|].
  destruct Hlast as [->|(t & c & Hr & Hc)]; [by left|].
  right. split; [|by exists t, c].
  destruct Hhead as [Hempty|(c0 & t0 & Hl0 & Hc0)].
  - rewrite Hempty in Hr. change (PyStr.rstrip "") with "" in Hr.
    destruct t; [by rewrite string_app_nil_l in Hr | by rewrite string_app_cons in Hr].
  - rewrite Hr in Hl |- *. rewrite Hl0 in Hl.
    destruct t as [|c1 t].
    + rewrite string_app_nil_l. exists c, "". by split.
    + rewrite !string_app_cons in Hl. injection Hl as -> _.
      rewrite string_app_cons. exists c1, (t +:+ String c ""). by split.
Qed.

(** The title of a record is the text of the title cell without the white
    space around it: the cell is white space, the title, white space, and the
    title is empty or neither starts nor ends with white space. *)
Theorem form_title_trimmed (row : Row) (t : string) :
  row_form_title row = inr t ->
  exists cell pre post,
    row_middle row = Some (Some cell) /\
    cell = pre +:+ t +:+ post /\
    string_forall PyStr.isspace pre = true /\
    string_forall PyStr.isspace post = true /\
    trimmed t.
Proof.
  unfold row_form_title.
  destruct (row_middle row) as [[cell|]|]; [|done|done].
  cbn [attr_of res_bind]. intros [= <-].
  destruct (strip_spec cell) as (pre & post & ?). by exists cell, pre, post.
Qed.

Lemma form_title_trimmed_witness :
  exists cell pre post,
    row_middle (sample_row "1040" "u" "  Individual Tax Return " "2019")
    = Some (Some cell) /\
    cell = pre +:+ "Individual Tax Return" +:+ post /\
    string_forall PyStr.isspace pre = true /\
    string_forall PyStr.isspace post = true /\
    trimmed "Individual Tax Return".
Proof.
  apply (form_title_trimmed
           (sample_row "1040" "u" "  Individual Tax Return " "2019")
           "Individual Tax Return").
  reflexivity.
Defined.

(** *** Decimal texts *)

Lemma pretty_N_char_digit x :
  (x < 10)%N -> PyStr.digit_value (pretty_N_char x) = Some (Z.of_N x).
Proof.
  intros Hx.
  assert (x = 0 \/ x = 1 \/ x = 2 \/ x = 3 \/ x = 4 \/ x = 5 \/ x = 6
          \/ x = 7 \/ x = 8 \/ x = 9)%N as Hcases by lia.
  repeat (destruct Hcases as [->|Hcases]; [reflexivity|]). by subst.
Qed.

Lemma is_digit_not_space c : is_digit c = true -> not_space c = true.
Proof.
  unfold is_digit, not_space, PyStr.digit_value, PyStr.isspace.
  destruct ((48 <=? N_of_ascii c) && (N_of_ascii c <=? 57))%N eqn:H; [|done].
  intros _. apply andb_true_iff in H as [H1%N.leb_le H2%N.leb_le].
  apply negb_true_iff. repeat (apply orb_false_iff; split).
  - apply andb_false_iff. right. apply N.leb_gt. lia.
  - apply andb_false_iff. right. apply N.leb_gt. lia.
  - apply N.eqb_neq. lia.
  - apply N.eqb_neq. lia.
Qed.

Lemma pretty_N_go_app x : forall s, pretty_N_go x s = pretty_N_go x "" +:+ s.
Proof.
  induction (N.lt_wf_0 x) as [x _ IH]. intros s.
  destruct (decide (x = 0)%N) as [->|Hx]; [by rewrite !pretty_N_go_0|].
  assert (Hlt : (x `div` 10 < x)%N) by (apply N.div_lt; lia).
  rewrite !(pretty_N_go_step x) by lia.
  rewrite (IH _ Hlt (String (pretty_N_char (x `mod` 10)) s)).
  rewrite (IH _ Hlt (String (pretty_N_char (x `mod` 10)) "")).
  by rewrite string_app_assoc.
Qed.

Lemma pretty_N_go_snoc x :
  (0 < x)%N ->
  pretty_N_go x ""
  = pretty_N_go (x `div` 10) "" +:+ String (pretty_N_char (x `mod` 10)) "".
Proof. intros Hx. by rewrite pretty_N_go_step, pretty_N_go_app by done. Qed.

Lemma pretty_N_go_digits x : string_forall is_digit (pretty_N_go x "") = true.
Proof.
  induction (N.lt_wf_0 x) as [x _ IH].
  destruct (decide (x = 0)%N) as [->|Hx]; [done|].
  rewrite pretty_N_go_snoc, string_forall_app by lia.
  rewrite IH by (apply N.div_lt; lia). simpl.
  unfold is_digit. rewrite pretty_N_char_digit; [done|].
  by apply N.mod_lt.
Qed.

Lemma digits_value_app acc s t :
  digits_value acc (s +:+ t) = digits_value (digits_value acc s) t.
Proof.
  revert acc. induction s as [|c s IH]; intros acc; [done|].
  rewrite string_app_cons. simpl. apply IH.
Qed.

Lemma pretty_N_go_value x : digits_value 0 (pretty_N_go x "") = Z.of_N x.
Proof.
  induction (N.lt_wf_0 x) as [x _ IH].
  destruct (decide (x = 0)%N) as [->|Hx]; [done|].
  rewrite pretty_N_go_snoc, digits_value_app by lia.
  rewrite IH by (apply N.div_lt; lia). simpl.
  rewrite pretty_N_char_digit by by apply N.mod_lt. simpl.
  rewrite (N.div_mod x 10) at 3 by done. lia.
Qed.

Lemma digits_of_digits s : forall acc b,
  string_forall is_digit s = true -> s <> "" \/ b = true ->
  PyStr.digits s acc b = Some (digits_value acc s).
Proof.
  induction s as [|c s IH]; intros acc b Hs Hb.
  - destruct Hb as [?| ->]; done.
  - simpl in Hs. apply andb_true_iff in Hs as [Hc Hs]. unfold is_digit in Hc.
    simpl. destruct (PyStr.digit_value c) as [d|]; [|done]. simpl.
    apply IH; [done | by right].
Qed.

Lemma string_forall_impl (P Q : ascii -> bool) s :
  (forall c, P c = true -> Q c = true) ->
  string_forall P s = true -> string_forall Q s = true.
Proof.
  intros HPQ. induction s as [|c s IH]; [done|]. simpl.
  intros [Hc Hs]%andb_true_iff. by rewrite (HPQ c Hc), IH.
Qed.

Lemma strip_not_space s : string_forall not_space s = true -> PyStr.strip s = s.
Proof.
  intros Hs. unfold PyStr.strip, PyStr.rstrip.
  assert (Hl : forall t, string_forall not_space t = true -> PyStr.lstrip t = t).
  { intros [|c t]; [done|]. simpl. unfold not_space at 1.
    intros [Hc _]%andb_true_iff. apply negb_true_iff in Hc. by rewrite Hc. }
  rewrite (Hl s Hs), Hl by by rewrite string_forall_rev.
  apply string_rev_involutive.
Qed.

Lemma digit_count_app s t :
  PyStr.digit_count (s +:+ t) = (PyStr.digit_count s + PyStr.digit_count t)%N.
Proof.
  induction s as [|c s IH]; [done|].
  rewrite string_app_cons. simpl. rewrite IH.
  destruct (PyStr.digit_value c); lia.
Qed.

(** The decimal text of a number below [10 ^ n] has at most [n] digits. *)
Lemma pretty_N_go_digit_count x : forall n,
  (x < 10 ^ n)%N -> (PyStr.digit_count (pretty_N_go x "") <= n)%N.
Proof.
  induction (N.lt_wf_0 x) as [x _ IH]. intros n Hx.
  destruct (decide (x = 0)%N) as [->|Hx0]; [simpl; lia|].
  rewrite pretty_N_go_snoc, digit_count_app by lia.
  assert (Hn : (n <> 0)%N) by (intros ->; simpl in Hx; lia).
  assert (Hdiv : (x `div` 10 < 10 ^ N.pred n)%N).
  { apply N.Div0.div_lt_upper_bound.
    replace (10 * 10 ^ N.pred n)%N with (10 ^ n)%N; [done|].
    rewrite <- N.pow_succ_r', N.succ_pred by done. done. }
  specialize (IH (x `div` 10)%N (N.div_lt x 10 ltac:(lia) ltac:(lia)) _ Hdiv).
  simpl. destruct (PyStr.digit_value _); lia.
Qed.

Lemma literal_of_digits s :
  string_forall is_digit s = true -> s <> "" ->
  (PyStr.digit_count s <= PyStr.max_str_digits)%N ->
  PyStr.literal s = Some (digits_value 0 s).
Proof.
  intros Hs Hne Hlen. unfold PyStr.literal.
  rewrite digits_of_digits by (by try left).
  apply N.leb_le in Hlen. by rewrite Hlen.
Qed.

Lemma int_of_digits c s :
  is_digit c = true ->
  PyStr.strip (String c s) = String c s ->
  PyStr.int (String c s)
  = match PyStr.literal (String c s) with
    | Some n => inr n
    | None => inl ValueError
    end.
Proof.
  intros Hc Hstrip. unfold PyStr.int. rewrite Hstrip. clear Hstrip.
  destruct c as [[] [] [] [] [] [] [] []]; try discriminate Hc; reflexivity.
Qed.

Lemma pretty_N_go_cons x :
  (0 < x)%N -> exists c s, pretty_N_go x "" = String c s.
Proof.
  intros Hx. rewrite pretty_N_go_snoc by done.
  destruct (pretty_N_go (x `div` 10) ""); [by eexists _, _|].
  rewrite string_app_cons. by eexists _, _.
Qed.

Lemma int_pretty_pos p :
  (N.pos p < 10 ^ PyStr.max_str_digits)%N ->
  PyStr.int (pretty (Z.pos p)) = inr (Z.pos p).
Proof.
  intros Hlim. apply pretty_N_go_digit_count in Hlim.
  change (pretty (Z.pos p)) with (pretty_N_go (N.pos p) "").
  pose proof (pretty_N_go_digits (N.pos p)) as Hd.
  destruct (pretty_N_go_cons (N.pos p)) as (c & s & Hs); [lia|].
  assert (Hstrip : PyStr.strip (pretty_N_go (N.pos p) "") = pretty_N_go (N.pos p) "").
  { apply strip_not_space.
    by apply (string_forall_impl is_digit), Hd; apply is_digit_not_space. }
  rewrite Hs in Hstrip, Hd, Hlim |- *.
  rewrite int_of_digits; [|by simpl in Hd; apply andb_true_iff in Hd as [? _]|done].
  rewrite literal_of_digits by done.
  rewrite <- Hs, pretty_N_go_value. done.
Qed.

Lemma lstrip_spaces pre s :
  string_forall PyStr.isspace pre = true -> PyStr.lstrip (pre +:+ s) = PyStr.lstrip s.
Proof.
  induction pre as [|c pre IH]; [done|]. simpl.
  intros [Hc Hpre]%andb_true_iff. rewrite ?string_app_cons. simpl. rewrite Hc. by apply IH.
Qed.

Lemma lstrip_not_space s : string_forall not_space s = true -> PyStr.lstrip s = s.
Proof.
  destruct s as [|c s]; [done|]. simpl. unfold not_space at 1.
  intros [Hc _]%andb_true_iff. apply negb_true_iff in Hc. by rewrite Hc.
Qed.

Lemma lstrip_not_space_app s t :
  s <> "" -> string_forall not_space s = true -> PyStr.lstrip (s +:+ t) = s +:+ t.
Proof.
  destruct s as [|c s]; [done|]. intros _. simpl. unfold not_space at 1.
  intros [Hc _]%andb_true_iff. apply negb_true_iff in Hc.
  rewrite ?string_app_cons. simpl. by rewrite Hc.
Qed.

Lemma strip_around pre s post :
  string_forall PyStr.isspace pre = true ->
  string_forall PyStr.isspace post = true ->
  string_forall not_space s = true ->
  s <> "" ->
  PyStr.strip (pre +:+ s +:+ post) = s.
Proof.
  intros Hpre Hpost Hs Hne. unfold PyStr.strip, PyStr.rstrip.
  rewrite lstrip_spaces, lstrip_not_space_app by done.
  rewrite string_rev_app, lstrip_spaces by by rewrite string_forall_rev.
  rewrite lstrip_not_space by by rewrite string_forall_rev.
  apply string_rev_involutive.
Qed.

Lemma pretty_Z_not_space (y : Z) :
  string_forall not_space (pretty y) = true /\ pretty y <> "".
Proof.
  assert (Hgo : forall p, string_forall not_space (pretty_N_go (N.pos p) "") = true).
  { intros p. apply (string_forall_impl is_digit); [apply is_digit_not_space|].
    apply pretty_N_go_digits. }
  destruct y as [|p|p].
  - done.
  - split; [apply Hgo|].
    change (pretty (Z.pos p)) with (pretty_N_go (N.pos p) "").
    by destruct (pretty_N_go_cons (N.pos p)) as (c & s & ->); [lia|].
  - split; [|done].
    change (pretty (Z.neg p)) with (String "-" (pretty_N_go (N.pos p) "")).
    simpl. apply Hgo.
Qed.

Lemma abs_limit_pos y p :
  Z.abs y < 10 ^ Z.of_N PyStr.max_str_digits -> Z.abs y = Z.pos p ->
  (N.pos p < 10 ^ PyStr.max_str_digits)%N.
Proof.
  intros Hlim Hp. rewrite Hp in Hlim.
  apply N2Z.inj_lt. by rewrite N2Z.inj_pow.
Qed.

Lemma int_pretty (y : Z) :
  Z.abs y < 10 ^ Z.of_N PyStr.max_str_digits -> PyStr.int (pretty y) = inr y.
Proof.
  intros Hlim.
  destruct y as [|p|p];
    [reflexivity | by apply int_pretty_pos, (abs_limit_pos (Z.pos p)) |].
  apply (abs_limit_pos (Z.neg p) p) in Hlim; [|done].
  apply pretty_N_go_digit_count in Hlim.
  change (pretty (Z.neg p)) with (String "-" (pretty_N_go (N.pos p) "")).
  pose proof (pretty_N_go_digits (N.pos p)) as Hd.
  assert (Hns : string_forall not_space (String "-" (pretty_N_go (N.pos p) "")) = true).
  { simpl. by apply (string_forall_impl is_digit), Hd; apply is_digit_not_space. }
  unfold PyStr.int. rewrite (strip_not_space _ Hns).
  rewrite literal_of_digits; [|done| |done].
  - by rewrite pretty_N_go_value.
  - destruct (pretty_N_go_cons (N.pos p)) as (c & s & ->); [lia|done].
Qed.

(** The year is read back from its decimal text: for an integer [y] of at
    most 4300 digits (the most that [int] reads, and that Python prints), a
    row whose year cell holds, with any white space around it, the text that
    the file name carries for the year [y] is a row of year [y]. *)
Theorem year_text_read_back (row : Row) (y : Z) (pre post : string) :
  Z.abs y < 10 ^ 4300 ->
  string_forall PyStr.isspace pre = true ->
  string_forall PyStr.isspace post = true ->
  row_end row = Some (Some (pre +:+ pretty y +:+ post)) ->
  row_current_year row = inr y.
Proof.
  intros Hlim Hpre Hpost Hcell. unfold row_current_year. rewrite Hcell.
  cbn [attr_of res_bind].
  destruct (pretty_Z_not_space y) as [Hns Hne].
  rewrite strip_around by done. by apply int_pretty.
Qed.

Lemma year_text_read_back_witness :
  row_current_year row_1040_2017 = inr 2017.
Proof.
  apply (year_text_read_back row_1040_2017 2017 " " " ");
    [vm_compute; reflexivity | reflexivity..].
Defined.

(** ** Further properties of the serialization *)

Lemma json_escape_char_printable c :
  string_forall printable (PyStr.json_escape_char c) = true.
Proof. destruct c as [[] [] [] [] [] [] [] []]; reflexivity. Qed.

Lemma json_escape_printable s : string_forall printable (PyStr.json_escape s) = true.
Proof.
  induction s as [|c s IH]; [done|]. simpl.
  by rewrite string_forall_app, json_escape_char_printable, IH.
Qed.

Lemma json_string_printable s : string_forall printable (PyStr.json_string s) = true.
Proof.
  unfold PyStr.json_string. by rewrite !string_forall_app, json_escape_printable.
Qed.

Lemma is_digit_printable c : is_digit c = true -> printable c = true.
Proof.
  unfold is_digit, printable, PyStr.digit_value.
  destruct ((48 <=? N_of_ascii c) && (N_of_ascii c <=? 57))%N eqn:H; [|done].
  intros _. apply andb_true_iff in H as [H1%N.leb_le H2%N.leb_le].
  apply andb_true_iff. split; apply N.leb_le; lia.
Qed.

Lemma pretty_Z_printable (y : Z) : string_forall printable (pretty y) = true.
Proof.
  assert (Hgo : forall p, string_forall printable (pretty_N_go (N.pos p) "") = true).
  { intros p. apply (string_forall_impl is_digit); [apply is_digit_printable|].
    apply pretty_N_go_digits. }
  destruct y as [|p|p]; [done | apply Hgo |].
  change (pretty (Z.neg p)) with (String "-" (pretty_N_go (N.pos p) "")).
  simpl. apply Hgo.
Qed.

Lemma json_dumps_printable d : string_forall printable (json_dumps d) = true.
Proof.
  unfold json_dumps.
  by rewrite !string_forall_app, !json_string_printable, !pretty_Z_printable.
Qed.

(** For keys and titles made of characters below U+0100, which are the
    texts considered here, every text returned by [parse_page_forms_json] is
    made of printable ASCII characters only ([json.dumps] escapes all
    others), one text per record. *)
Theorem parse_page_forms_json_ascii (rows : list Row) (w : World) :
  exists out forms w',
    parse_page_forms_json rows w = (w', inr out) /\
    page_forms_loop rows [] w = (w', inr forms) /\
    length out = length forms /\
    forall text, text ∈ out -> string_forall printable text = true.
Proof.
  eexists _, _, _. split; [apply parse_page_forms_json_run|].
  split; [apply page_forms_loop_run|]. split; [apply length_fmap|].
  intros text (d & -> & _)%list_elem_of_fmap. apply json_dumps_printable.
Qed.

(** ** The disk, for plain names *)



















Section PlainBatch.

Variable net : string -> Res Response.





End PlainBatch.

(** ** What one row leaves on disk *)







(** ** Batches of rows with plain keys *)






